(** * US energy-incentive programs heat map (app.py)

    A shallow embedding of the dashboard's data path:

    - [load_data]: the two store fetches and the [try]/[except] around them;
    - the module-level preparation of [df_us_programs] and [device_options];
    - the callbacks [update_device_selection] and [update_map], the latter
      being the filter-and-aggregate engine.

    Data frames are lists of rows (row order is the frame's index order), a
    missing value (None / NaN) of a column is [None], and code that may raise
    runs in the error monad [result]. The constant [state_to_region] is a
    [gmap]; the device dictionary keeps the insertion order of its keys, which
    the lookup on a float64 column depends on.
    Strings are [string]s; one [ascii] stands for one character, so [len] is
    [String.length] and the order on strings is the character-wise one that
    Python and pandas sort by. *)

From stdpp Require Import gmap strings list sorting pretty.

(** ** Exceptions *)

Inductive PyExn : Type :=
  | KeyError (key : string)
  | ValueError (msg : string)
  | TypeError (msg : string)
  | ClientError (msg : string).

Inductive result (A : Type) : Type :=
  | Ok (a : A)
  | Raise (e : PyExn).
Arguments Ok {A} a.
Arguments Raise {A} e.

#[global] Instance result_ret : MRet result := λ A, Ok.
#[global] Instance result_bind : MBind result := λ A B f m,
  match m with
  | Ok a => f a
  | Raise e => Raise e
  end.

(** [try: body except Exception: handler]. Every [PyExn] is an [Exception]. *)
Definition try_except {A} (body : result A) (handler : PyExn → A) : A :=
  match body with
  | Ok a => a
  | Raise e => handler e
  end.

(** ** Rows *)

Module DeviceCategory.
Record t : Type := mk { id : Z; name : string }.
End DeviceCategory.

(** A row of the [programs] collection, with the two columns the program
    reads. Either may be null in the store; ids are the store's 64-bit
    integers. In a frame, the id is the number the column holds. *)
Record Program : Type := {
  state_province : option string;
  device_category_id : option Z
}.

(** A row of [df_us_programs]: the program row and the two added columns. *)
Record USProgram : Type := {
  program : Program;
  device_name : option string;
  region : option string
}.

#[global] Instance Program_eq_dec : EqDecision Program.
Proof. solve_decision. Defined.
#[global] Instance USProgram_eq_dec : EqDecision USProgram.
Proof. solve_decision. Defined.

(** ** 2. Data loading *)

(** [pd.DataFrame(data)[key]]: a frame built from no rows has no columns. *)
Definition column {A B} (key : string) (field : A → B) (data : list A)
    : result (list B) :=
  match data with
  | [] => Raise (KeyError key)
  | _ => Ok (field <$> data)
  end.

(** A Python dictionary from ids to names: its items in the insertion order
    of their keys, each key once. *)
Record PyDict : Type := PyDict_of { dict_items : list (Z * string) }.

#[global] Instance PyDict_eq_dec : EqDecision PyDict.
Proof. solve_decision. Defined.

#[global] Instance PyDict_empty : Empty PyDict := PyDict_of [].

#[global] Instance PyDict_singleton : SingletonM Z string PyDict :=
  λ k v, PyDict_of [(k, v)].

(** [d[k]] *)
#[global] Instance PyDict_lookup : Lookup Z string PyDict :=
  λ k d, snd <$> head (filter (λ kv, kv.1 = k) (dict_items d)).

(** [d[k] = v] on the items: a key already present keeps its place and gets
    the new value, a new key goes last. *)
Fixpoint set_item (k : Z) (v : string) (items : list (Z * string))
    : list (Z * string) :=
  match items with
  | [] => [(k, v)]
  | (k', v') :: rest =>
      if decide (k' = k) then (k, v) :: rest else (k', v') :: set_item k v rest
  end.

#[global] Instance PyDict_insert : Insert Z string PyDict :=
  λ k v d, PyDict_of (set_item k v (dict_items d)).

(** [dict(pairs)]: a later pair with the same key replaces an earlier one. *)
Definition dict (pairs : list (Z * string)) : PyDict :=
  foldl (λ d kv, <[kv.1 := kv.2]> d) ∅ pairs.

(** The double nearest to an integer, itself an integer: integers of
    magnitude up to 2^53 are doubles; a larger one keeps its 53 leading bits,
    rounded to nearest, ties to the even significand. *)
Definition float64_of_int (i : Z) : Z :=
  let a := Z.abs i in
  let e := (Z.log2 a - 52)%Z in
  if bool_decide (e ≤ 0)%Z then i
  else
    let q := (a / 2 ^ e)%Z in
    let r := (a mod 2 ^ e)%Z in
    let half := (2 ^ (e - 1))%Z in
    let q' := if bool_decide (r < half)%Z then q
              else if bool_decide (half < r)%Z then (q + 1)%Z
              else if Z.even q then q else (q + 1)%Z in
    (Z.sgn i * (q' * 2 ^ e))%Z.

(** Whether the frame holds the id column as float64: an integer column with
    a null in it is held as doubles. *)
Definition id_is_float64 (df : list Program) : bool :=
  existsb (λ p, bool_decide (device_category_id p = None)) df.

(** [pd.DataFrame(programs_data)]: the rows in order. The location codes are
    kept as they are; the ids are kept as integers when none is null, and
    become the nearest doubles when one is. *)
Definition DataFrame (programs_data : list Program) : list Program :=
  if id_is_float64 programs_data
  then (λ p, {| state_province := state_province p;
                device_category_id := float64_of_int <$> device_category_id p |})
         <$> programs_data
  else programs_data.

(** The body of the [try] block. [device_response] and [programs_response]
    are the outcomes of the two [execute()] calls: the rows of [.data], or the
    exception the client raised. The second call is only reached when
    everything before it succeeded, which is what the bind expresses. *)
Definition load_data_body
    (device_response : result (list DeviceCategory.t))
    (programs_response : result (list Program))
    : result (list Program * PyDict) :=
  device_categories ← device_response;
  ids ← column "id" DeviceCategory.id device_categories;
  names ← column "name" DeviceCategory.name device_categories;
  let device_dict := dict (zip ids names) in
  programs_data ← programs_response;
  match programs_data with
  | [] => Raise (ValueError "No rows returned from Supabase programs table.")
  | _ => Ok (DataFrame programs_data, device_dict)
  end.

Definition load_data
    (device_response : result (list DeviceCategory.t))
    (programs_response : result (list Program))
    : list Program * PyDict :=
  try_except (load_data_body device_response programs_response)
             (λ _, ([], ∅)).

(** ** 3. Process and prepare data *)

Definition state_to_region_items : list (string * string) :=
  [ ("AZ", "Southwest"); ("NM", "Southwest"); ("TX", "Southwest");
    ("OK", "Southwest");
    ("CA", "West"); ("OR", "West"); ("WA", "West"); ("NV", "West");
    ("ID", "West"); ("MT", "West"); ("WY", "West"); ("CO", "West");
    ("UT", "West");
    ("FL", "Southeast"); ("GA", "Southeast"); ("SC", "Southeast");
    ("NC", "Southeast"); ("VA", "Southeast"); ("AL", "Southeast");
    ("MS", "Southeast"); ("TN", "Southeast"); ("KY", "Southeast");
    ("AR", "Southeast"); ("LA", "Southeast");
    ("IL", "Midwest"); ("IN", "Midwest"); ("MI", "Midwest");
    ("OH", "Midwest"); ("WI", "Midwest"); ("MN", "Midwest");
    ("IA", "Midwest"); ("MO", "Midwest"); ("ND", "Midwest");
    ("SD", "Midwest"); ("NE", "Midwest"); ("KS", "Midwest");
    ("NY", "Mid-Atlantic"); ("NJ", "Mid-Atlantic"); ("PA", "Mid-Atlantic");
    ("DE", "Mid-Atlantic"); ("MD", "Mid-Atlantic"); ("WV", "Mid-Atlantic");
    ("ME", "Northeast"); ("NH", "Northeast"); ("VT", "Northeast");
    ("MA", "Northeast"); ("RI", "Northeast"); ("CT", "Northeast") ].

Definition state_to_region : gmap string string :=
  list_to_map state_to_region_items.

(** Region centres (lat, lon), in the dictionary's insertion order. *)
Definition region_centers : list (string * (Z * Z)) :=
  [ ("Southwest", (34, -106)); ("West", (42, -117));
    ("Southeast", (32, -83)); ("Midwest", (42, -92));
    ("Mid-Atlantic", (40, -76)); ("Northeast", (43, -71)) ]%Z.

(** [series.str.len()]: a null entry has no length. *)
Definition str_len (s : option string) : option nat := String.length <$> s.

(** [series.map(d)]: a null entry, or a key missing from [d], gives null. *)
Definition series_map `{Lookup K V M} (d : M) (k : option K) : option V :=
  k ≫= (d !!.).

(** [not df_programs.empty and device_dict] *)
Definition data_available (df_programs : list Program)
    (device_dict : PyDict) : bool :=
  negb (bool_decide (df_programs = [])) && negb (bool_decide (device_dict = ∅)).

(** [ids.map(device_dict)]: the lookup compares in the dtype of the id
    column. On an integer column a cell finds the key equal to it. On a
    float64 column the keys are compared as doubles as well, and of several
    keys with the same double the one the dictionary lists last is found. *)
Definition map_device_dict (float64 : bool) (device_dict : PyDict)
    (cell : option Z) : option string :=
  c ← cell;
  if float64
  then snd <$> last (filter (λ kv, float64_of_int kv.1 = c)
                            (dict_items device_dict))
  else device_dict !! c.

(** The two added columns of a row; [float64] is the dtype of the frame's id
    column. *)
Definition add_columns (float64 : bool) (device_dict : PyDict) (p : Program)
    : USProgram :=
  {| program := p;
     device_name := map_device_dict float64 device_dict (device_category_id p);
     region := series_map state_to_region (state_province p) |}.

Definition df_us_programs (df_programs : list Program)
    (device_dict : PyDict) : list USProgram :=
  if data_available df_programs device_dict then
    add_columns (id_is_float64 df_programs) device_dict
      <$> filter (λ p, str_len (state_province p) = Some 2) df_programs
  else [].

(** [series.dropna()] *)
Definition dropna {A} (col : list (option A)) : list A := omap id col.

(** [series.unique()]: the distinct values in order of first appearance. *)
Definition unique `{EqDecision A} (col : list A) : list A :=
  foldl (λ seen x, if decide (x ∈ seen) then seen else seen ++ [x]) [] col.

(** [sorted(xs)] on strings. *)
Definition sorted (xs : list string) : list string := merge_sort String.le xs.

(** The values of the device filter's options (label and value coincide). *)
Definition device_options (df_programs : list Program)
    (device_dict : PyDict) : list string :=
  if data_available df_programs device_dict then
    sorted (unique (dropna (device_name <$> df_us_programs df_programs device_dict)))
  else [].

(** ** Grouping *)

(** [frame.groupby(keys).size()]: one pass over the key column keeps a running
    count per key. Rows with a null key are dropped, and the groups come out in
    ascending key order (pandas' defaults [dropna=True], [sort=True]). *)
Section groupby.
Context `{EqDecision K} (le : relation K) `{!RelDecision le}.

Fixpoint count_key (k : K) (groups : list (K * nat)) : list (K * nat) :=
  match groups with
  | [] => [(k, 1)]
  | (k', n) :: rest =>
      if decide (k = k') then (k', S n) :: rest
      else if decide (le k k') then (k, 1) :: (k', n) :: rest
      else (k', n) :: count_key k rest
  end.

Definition groupby_size (keys : list (option K)) : list (K * nat) :=
  foldl (λ groups k, count_key k groups) [] (dropna keys).
End groupby.

(** Order of a two-column grouping key: by the first column, then by the
    second. *)
Definition key2_le (a b : string * string) : Prop :=
  if decide (a.1 = b.1) then String.le a.2 b.2 else String.le a.1 b.1.

#[global] Instance key2_le_dec : RelDecision key2_le.
Proof. intros a b. unfold key2_le. destruct (decide (a.1 = b.1)); apply _. Defined.

(** [series.sort_values(ascending=False)] on group sizes: the ascending order
    of the sizes, reversed, so that groups of equal size come out in the
    reverse of their key order. The ascending sort is taken to keep equal
    sizes in place, as numpy's default sort does on short input; on long input
    numpy leaves the order of equal sizes open, and no statement below
    depends on it. *)
Fixpoint insert_asc (g : string * nat) (acc : list (string * nat))
    : list (string * nat) :=
  match acc with
  | [] => [g]
  | h :: rest =>
      if decide (g.2 ≤ h.2) then g :: h :: rest else h :: insert_asc g rest
  end.

Definition sort_values_desc (groups : list (string * nat))
    : list (string * nat) :=
  reverse (foldr insert_asc [] groups).

(** ** 5. Callbacks *)

(** The value of a multi-select filter as the callback receives it: a list of
    option values, or None. *)
Definition selection : Type := option (list string).

(** Truth value of a selection: None and the empty list are false. *)
Definition truthy (sel : selection) : bool :=
  match sel with
  | Some (_ :: _) => true
  | _ => false
  end.

(** [s.split('.')[0]]: the part of [s] before its first dot, all of [s] when
    it has none. *)
Definition split_head (s : string) : string :=
  match String.index 0 "." s with
  | Some n => String.substring 0 n s
  | None => s
  end.

Inductive callback_output (A : Type) : Type :=
  | no_update
  | new_value (a : A).
Arguments no_update {A}.
Arguments new_value {A} a.

(** [opts] is the module-level [device_options]; [triggered] lists the
    [prop_id]s of [ctx.triggered]. *)
Definition update_device_selection (opts : list string)
    (triggered : list string) : callback_output (list string) :=
  match opts with
  | [] => new_value []
  | _ =>
      match triggered with
      | [] => no_update
      | prop_id :: _ =>
          let button_id := split_head prop_id in
          if decide (button_id = "select-all-devices") then new_value opts
          else if decide (button_id = "clear-all-devices") then new_value []
          else no_update
      end
  end.

(** *** update_map *)

(** Whether a cell is one of [values]; a null cell is none of them. *)
Definition is_in (x : option string) (values : list string) : bool :=
  match x with
  | Some s => bool_decide (s ∈ values)
  | None => false
  end.

(** [df[df[col].isin(values)]] *)
Definition select_isin (col : USProgram → option string) (values : selection)
    (df : list USProgram) : result (list USProgram) :=
  match values with
  | None =>
      Raise (TypeError "only list-like objects are allowed to be passed to isin()")
  | Some vs => Ok (filter (λ r, is_in (col r) vs) df)
  end.

(** Lines 241-251: the working set. [df.iloc[0:0]] is the frame without
    rows. *)
Definition filtered_df (df : list USProgram)
    (selected_devices selected_regions : selection)
    : result (list USProgram) :=
  by_device ←
    (if truthy selected_devices
     then select_isin device_name selected_devices df
     else Ok []);
  if truthy selected_regions
  then select_isin region selected_regions by_device
  else Ok [].

(** A row of [state_totals]. *)
Record StateRow : Type := {
  state : string;
  programs : nat;
  state_region : option string
}.

Definition state_totals (filtered : list USProgram) : list StateRow :=
  (λ g, {| state := g.1; programs := g.2;
           state_region := series_map state_to_region (Some g.1) |})
    <$> groupby_size String.le (state_province ∘ program <$> filtered).

Definition region_totals (filtered : list USProgram) : list (string * nat) :=
  groupby_size String.le (region <$> filtered).

Definition region_device_counts (filtered : list USProgram)
    : list ((string * string) * nat) :=
  groupby_size key2_le
    ((λ r, a ← region r; b ← device_name r; Some (a, b)) <$> filtered).

Definition device_breakdown (filtered : list USProgram)
    : list (string * nat) :=
  sort_values_desc (groupby_size String.le (device_name <$> filtered)).

(** [x in selected] *)
Definition py_in (x : option string) (selected : selection) : result bool :=
  match selected with
  | None => Raise (TypeError "argument of type 'NoneType' is not iterable")
  | Some vs => Ok (is_in x vs)
  end.

(** [region and region in selected_regions]: the empty string is false, NaN
    and every other string are true. *)
Definition region_shown (region : option string) (selected_regions : selection)
    : result bool :=
  if decide (region = Some "") then Ok false
  else py_in region selected_regions.

(** How an f-string prints a cell. *)
Definition py_str (x : option string) : string := default "nan" x.

(** [region_device_counts[region_device_counts['region'] == region]] *)
Definition region_devices (counts : list ((string * string) * nat))
    (region : option string) : list ((string * string) * nat) :=
  filter (λ g, Some g.1.1 = region) counts.

(** Lines 268-278: the hover text of a state whose region is shown. *)
Definition region_hover_text (totals : list (string * nat))
    (counts : list ((string * string) * nat)) (region : option string)
    : string :=
  let region_total :=
    match filter (λ g, Some g.1 = region) totals with
    | g :: _ => g.2
    | [] => 0
    end in
  foldl (λ hover_text device_row,
           hover_text +:+ device_row.1.2 +:+ ": " +:+ pretty device_row.2
             +:+ "<br>")
        ("<b>" +:+ py_str region +:+ " Region</b><br>"
           +:+ "Total Programs: " +:+ pretty region_total +:+ "<br><br>"
           +:+ "<b>By Device Type:</b><br>")
        (region_devices counts region).

(** The body of the loop over [state_totals.iterrows()]. *)
Definition hover_text_of (totals : list (string * nat))
    (counts : list ((string * string) * nat)) (selected_regions : selection)
    (state_row : StateRow) : result string :=
  shown ← region_shown (state_region state_row) selected_regions;
  if (shown : bool)
  then Ok (region_hover_text totals counts (state_region state_row))
  else Ok ("<b>" +:+ state state_row +:+ "</b><br>No data for selected filters").

(** [frame[col] = values]: the lengths must agree. *)
Definition set_column {A B} (frame : list A) (values : list B)
    : result (list (A * B)) :=
  if decide (length values = length frame) then Ok (zip frame values)
  else Raise (ValueError "Length of values does not match length of index").

(** What the callback hands to the charting library. *)
Record Figure : Type := {
  title : string;
  locations : list string;
  z : list nat;
  customdata : list string;
  text_traces : list (string * (Z * Z));
  margins_set : bool
}.

Inductive Html : Type :=
  | H3 (s : string)
  | H4 (s : string)
  | P (s : string)
  | Ul (items : list string).

(** [go.Figure()] with one choropleth trace over no locations. *)
Definition blank_figure (fig_title : string) : Figure :=
  {| title := fig_title; locations := []; z := []; customdata := [];
     text_traces := []; margins_set := false |}.

(** Lines 343-349. *)
Definition finish (fig : Figure) : Figure :=
  {| title := title fig; locations := locations fig; z := z fig;
     customdata := customdata fig; text_traces := text_traces fig;
     margins_set := true |}.

(** Lines 255-325: the branch taken when the working set has rows. *)
Definition render (filtered : list USProgram) (selected_regions : selection)
    : result (Figure * list Html) :=
  let totals := region_totals filtered in
  let counts := region_device_counts filtered in
  hover_texts ← mapM (hover_text_of totals counts selected_regions)
                     (state_totals filtered);
  rows ← set_column (state_totals filtered) hover_texts;
  labels ← mapM (λ c, shown ← py_in (Some c.1) selected_regions;
                      Ok (c, (shown : bool)))
                region_centers;
  let total_programs := length filtered in
  let total_states := length (state_totals filtered) in
  let total_regions := length totals in
  Ok ({| title := "Programs for Selected Device Types ("
                    +:+ pretty (length filtered) +:+ " total programs)";
         locations := (state ∘ fst) <$> rows;
         z := (programs ∘ fst) <$> rows;
         customdata := snd <$> rows;
         text_traces := fst <$> filter (λ l, l.2 = true) labels;
         margins_set := false |},
      [ H3 "Summary Statistics";
        P ("Total Programs: " +:+ pretty total_programs);
        P ("States with Programs: " +:+ pretty total_states);
        P ("Regions with Programs: " +:+ pretty total_regions);
        H4 "Programs by Device Type:";
        Ul ((λ g, g.1 +:+ ": " +:+ pretty g.2) <$> device_breakdown filtered) ]).

(** The early return of lines 228-238. *)
Definition no_data : Figure * list Html :=
  (blank_figure "No data available", [P "No data available"]).

(** Lines 327-341, after [finish]. *)
Definition no_match : Figure * list Html :=
  (finish (blank_figure "No data available for selected filters"),
   [ H3 "Summary Statistics"; P "No programs match the selected filters." ]).

(** [df] is the module-level [df_us_programs]. *)
Definition update_map (df : list USProgram)
    (selected_devices selected_regions : selection)
    : result (Figure * list Html) :=
  if decide (df = []) then Ok no_data
  else
    filtered ← filtered_df df selected_devices selected_regions;
    '(fig, summary_children) ←
      (if decide (0 < length filtered)
       then render filtered selected_regions
       else Ok (blank_figure "No data available for selected filters",
                [ H3 "Summary Statistics";
                  P "No programs match the selected filters." ]));
    Ok (finish fig, summary_children).

(** *** update_region_selection *)

(** [list(set(state_to_region.values()))]. The language does not fix the order
    in which a set is listed; [elements] is one listing without repetition,
    and the callbacks below only ever ask which names the list holds. *)
Definition all_regions : list string :=
  elements (list_to_set (map_to_list state_to_region).*2 : gset string).

(** Unlike the device callback, this one does not look at [device_options]. *)
Definition update_region_selection (triggered : list string)
    : callback_output (list string) :=
  match triggered with
  | [] => no_update
  | prop_id :: _ =>
      let button_id := split_head prop_id in
      if decide (button_id = "select-all-regions") then new_value all_regions
      else if decide (button_id = "clear-all-regions") then new_value []
      else no_update
  end.

(** *** show_error_message *)

(** The children of the error-message element: a text or a [Div]. *)
Inductive Children : Type :=
  | Text (s : string)
  | Div (children : list Html).

Definition show_error_message (df_programs : list Program)
    (device_dict : PyDict) : Children :=
  if bool_decide (df_programs = []) || bool_decide (device_dict = ∅)
  then Div [ H3 "⚠️ Unable to load data";
             P "Please check your Supabase connection and try again later.";
             P "Make sure SUPABASE_URL and SUPABASE_KEY environment variables are set correctly." ]
  else Text "".

(** ** Auxiliary notions used in the statements *)

(** The row test of the working set for truthy selections. *)
Definition kept (devices regions : list string) (r : USProgram) : Prop :=
  is_in (device_name r) devices ∧ is_in (region r) regions.

#[global] Instance kept_dec devices regions r : Decision (kept devices regions r).
Proof. unfold kept. apply _. Defined.

(** The device rows of a region as the hover text lists them. *)
Definition hover_breakdown (filtered : list USProgram) (reg : option string)
    : list (string * nat) :=
  (λ g, (g.1.2, g.2))
    <$> region_devices (region_device_counts filtered) reg.

(** The reading of the specification for the order of that list: the devices
    of the region in the order in which the rows of the working set first
    mention them. *)
Definition encounter_order (filtered : list USProgram) (reg : string)
    : list string :=
  unique (dropna (device_name <$> filter (λ r, region r = Some reg) filtered)).

#[global] Instance from_option_dec {A} (P : A → Prop) (Q : Prop)
    `{!∀ x, Decision (P x), !Decision Q} (o : option A) :
  Decision (from_option P Q o).
Proof. destruct o; apply _. Defined.

(** * Properties *)

(** ** Two runs of the callback *)

(** A CA and a TX program, both Solar; selecting Solar and West keeps the CA
    row only. *)
Example update_map_solar_west :
  update_map
    (df_us_programs
       [ {| state_province := Some "CA"; device_category_id := Some 1%Z |};
         {| state_province := Some "TX"; device_category_id := Some 1%Z |} ]
       {[ 1%Z := "Solar" ]})
    (Some ["Solar"]) (Some ["West"])
  = Ok ({| title := "Programs for Selected Device Types (1 total programs)";
           locations := ["CA"];
           z := [1];
           customdata :=
             ["<b>West Region</b><br>Total Programs: 1<br><br><b>By Device Type:</b><br>Solar: 1<br>"];
           text_traces := [("West", (42, -117)%Z)];
           margins_set := true |},
        [ H3 "Summary Statistics"; P "Total Programs: 1";
          P "States with Programs: 1"; P "Regions with Programs: 1";
          H4 "Programs by Device Type:"; Ul ["Solar: 1"] ]).
Proof. by vm_compute. Qed.

(** The same table with no region selected. *)
Example update_map_no_region :
  update_map
    (df_us_programs
       [ {| state_province := Some "CA"; device_category_id := Some 1%Z |};
         {| state_province := Some "TX"; device_category_id := Some 1%Z |} ]
       {[ 1%Z := "Solar" ]})
    (Some ["Solar"]) (Some [])
  = Ok no_match.
Proof. by vm_compute. Qed.

(** ** The error monad *)

Lemma bind_Ok {A B} (f : A → result B) (a : A) : Ok a ≫= f = f a.
Proof. reflexivity. Qed.

Lemma mapM_Ok {A B} (f : A → result B) (g : A → B) (l : list A) :
  (∀ x, x ∈ l → f x = Ok (g x)) → mapM f l = Ok (g <$> l).
Proof.
  induction l as [|x l IH]; intros Hf; [reflexivity|].
  cbn [mapM]. rewrite (Hf x) by left. cbn.
  rewrite IH by (intros y Hy; apply Hf; by right). reflexivity.
Qed.

(** ** Filtering *)

Lemma truthy_Some sel : truthy sel = true → ∃ x xs, sel = Some (x :: xs).
Proof. destruct sel as [[|x xs]|]; try discriminate. eauto. Qed.

Lemma filtered_df_eq df sd sr :
  filtered_df df sd sr =
  Ok (if truthy sd && truthy sr
      then filter (kept (default [] sd) (default [] sr)) df
      else []).
Proof.
  unfold filtered_df.
  destruct (truthy sd) eqn:Hd; destruct (truthy sr) eqn:Hr; cbn.
  - apply truthy_Some in Hd as (d & ds & ->).
    apply truthy_Some in Hr as (x & xs & ->). cbn.
    f_equal. rewrite list_filter_filter. apply list_filter_iff.
    intros r. unfold kept. tauto.
  - apply truthy_Some in Hd as (d & ds & ->). reflexivity.
  - apply truthy_Some in Hr as (x & xs & ->). reflexivity.
  - reflexivity.
Qed.

Lemma filtered_df_elem_of df sd sr rows r :
  filtered_df df sd sr = Ok rows → r ∈ rows →
  r ∈ df ∧ is_in (device_name r) (default [] sd)
         ∧ is_in (region r) (default [] sr)
         ∧ truthy sd = true ∧ truthy sr = true.
Proof.
  rewrite filtered_df_eq. intros [= <-].
  destruct (truthy sd), (truthy sr); cbn; try (by intros ?%elem_of_nil).
  rewrite list_elem_of_filter. unfold kept. tauto.
Qed.

Lemma filter_implies_length {A} (P Q : A → Prop)
    `{!∀ x, Decision (P x), !∀ x, Decision (Q x)} (l : list A) :
  (∀ x, P x → Q x) → length (filter P l) ≤ length (filter Q l).
Proof.
  intros HPQ. induction l as [|x l IH]; [done|].
  rewrite !filter_cons.
  destruct (decide (P x)) as [HP|HP]; destruct (decide (Q x)) as [HQ|HQ];
    cbn; try lia.
  destruct HQ. auto.
Qed.

Lemma is_in_mono x (vs ws : list string) :
  vs ⊆ ws → is_in x vs → is_in x ws.
Proof.
  destruct x as [s|]; cbn; [|done].
  rewrite !bool_decide_spec. auto.
Qed.

(** A null cell passes no [isin] test. *)
Lemma is_in_None vs : ¬ is_in None vs.
Proof. cbn. tauto. Qed.

(** A row that fails the test of either filter can be deleted from the table
    without changing the working set. *)
Lemma filtered_df_delete t1 t2 r sd sr :
  (∀ vs, ¬ is_in (device_name r) vs) ∨ (∀ vs, ¬ is_in (region r) vs) →
  filtered_df (t1 ++ r :: t2) sd sr = filtered_df (t1 ++ t2) sd sr.
Proof.
  intros Hr. rewrite !filtered_df_eq. f_equal.
  destruct (truthy sd && truthy sr); [|done].
  rewrite !filter_app, filter_cons.
  destruct (decide (kept _ _ r)) as [[Hd Hg]|]; [|done].
  destruct Hr as [Hr|Hr]; by edestruct Hr.
Qed.

(** ** update_map on empty tables and empty selections *)

Lemma update_map_nonempty_table df sd sr :
  df ≠ [] → truthy sd && truthy sr = false → update_map df sd sr = Ok no_match.
Proof.
  intros Hdf Hsel. unfold update_map.
  destruct (decide (df = [])) as [|_]; [done|].
  rewrite filtered_df_eq, Hsel. reflexivity.
Qed.

(** C1. If the selected devices or the selected regions are empty (the code's
    test: the selection is false, that is the empty list or None), the
    working set has zero rows, whatever the table holds, and [update_map]
    returns an aggregate without any location or count: the
    no-data result on an empty table, the no-match result otherwise. *)
Theorem empty_selection_gives_empty_aggregate df sd sr :
  truthy sd = false ∨ truthy sr = false →
  filtered_df df sd sr = Ok [] ∧
  update_map df sd sr = Ok (if decide (df = []) then no_data else no_match) ∧
  ∃ fig summary,
    update_map df sd sr = Ok (fig, summary) ∧
    locations fig = [] ∧ z fig = [] ∧ customdata fig = [].
Proof.
  intros Hsel.
  assert (truthy sd && truthy sr = false) as Hboth.
  { destruct Hsel as [-> | ->]; [done | apply andb_false_r]. }
  assert (update_map df sd sr
          = Ok (if decide (df = []) then no_data else no_match)) as Hmap.
  { destruct (decide (df = [])) as [-> | Hdf]; [reflexivity|].
    by apply update_map_nonempty_table. }
  split; [by rewrite filtered_df_eq, Hboth|].
  split; [done|].
  rewrite Hmap. destruct (decide (df = [])); by eexists _, _.
Qed.

Lemma empty_selection_gives_empty_aggregate_witness :
  filtered_df
    [ {| program := {| state_province := Some "CA";
                       device_category_id := Some 1%Z |};
         device_name := Some "Solar"; region := Some "West" |} ]
    (Some ["Solar"]) (Some []) = Ok [] ∧
  update_map
    [ {| program := {| state_province := Some "CA";
                       device_category_id := Some 1%Z |};
         device_name := Some "Solar"; region := Some "West" |} ]
    (Some ["Solar"]) (Some []) = Ok no_match.
Proof.
  destruct (empty_selection_gives_empty_aggregate
              [ {| program := {| state_province := Some "CA";
                                 device_category_id := Some 1%Z |};
                   device_name := Some "Solar"; region := Some "West" |} ]
              (Some ["Solar"]) (Some []))
    as (Hrows & Hmap & _); [right; reflexivity|].
  split; [exact Hrows | exact Hmap].
Defined.

(** C2. On an empty base table [update_map] returns the no-data result for
    every pair of selections, and that result is not the no-match result
    returned when filtering leaves nothing. *)
Theorem empty_table_gives_no_data sd sr :
  update_map [] sd sr = Ok no_data ∧
  update_map [] sd sr ≠ Ok no_match ∧
  title (no_data.1) ≠ title (no_match.1) ∧ no_data.2 ≠ no_match.2.
Proof.
  split; [reflexivity|]. split; [|split]; discriminate.
Qed.

(** C4. Removing an element from the selected devices, or from the selected
    regions, never increases the number of rows of the working set
    ([total_programs = len(filtered_df)]). *)
Theorem removing_selection_never_increases_total df devices regions x :
  ∃ rows rows_d rows_r,
    filtered_df df (Some devices) (Some regions) = Ok rows ∧
    filtered_df df (Some (filter (.≠ x) devices)) (Some regions) = Ok rows_d ∧
    filtered_df df (Some devices) (Some (filter (.≠ x) regions)) = Ok rows_r ∧
    length rows_d ≤ length rows ∧ length rows_r ≤ length rows.
Proof.
  rewrite !filtered_df_eq. eexists _, _, _.
  split; [reflexivity|]. split; [reflexivity|]. split; [reflexivity|].
  cbn [default from_option id].
  assert (∀ l : list string, filter (.≠ x) l ⊆ l) as Hsub.
  { intros l y. rewrite list_elem_of_filter. tauto. }
  assert (∀ l : list string, truthy (Some (filter (.≠ x) l)) = true →
                             truthy (Some l) = true) as Htr.
  { intros [|y l]; [done|reflexivity]. }
  split.
  - destruct (truthy (Some (filter _ devices))) eqn:Hd; [|cbn; lia].
    rewrite (Htr _ Hd). destruct (truthy (Some regions)); [|cbn; lia].
    cbn [andb]. apply filter_implies_length.
    intros r [Hdev Hreg]. split; [|done].
    eapply is_in_mono; [apply Hsub | done].
  - destruct (truthy (Some (filter _ regions))) eqn:Hr;
      [|rewrite andb_false_r; cbn; lia].
    rewrite (Htr _ Hr). destruct (truthy (Some devices)); [|cbn; lia].
    cbn [andb]. apply filter_implies_length.
    intros r [Hdev Hreg]. split; [done|].
    eapply is_in_mono; [apply Hsub | done].
Qed.

(** ** load_data *)

Lemma set_item_nonempty k v items : set_item k v items ≠ [].
Proof. destruct items as [|[k' v'] items]; cbn; [done|]. by destruct (decide _). Qed.

Lemma PyDict_insert_nonempty k v (d : PyDict) : <[k:=v]> d ≠ ∅.
Proof. intros [= H]. by apply set_item_nonempty in H. Qed.

Lemma PyDict_lookup_insert k v (d : PyDict) k' :
  <[k:=v]> d !! k' = if decide (k = k') then Some v else d !! k'.
Proof.
  destruct d as [items]. unfold lookup, PyDict_lookup, insert, PyDict_insert.
  cbn [dict_items].
  induction items as [|[k0 v0] items IH]; cbn [set_item].
  - rewrite filter_cons, filter_nil. cbn [fst].
    by destruct (decide (k = k')).
  - destruct (decide (k0 = k)) as [->|Hne]; rewrite !filter_cons; cbn [fst].
    + by destruct (decide (k = k')).
    + destruct (decide (k0 = k')) as [->|Hne'].
      * by rewrite decide_False by done.
      * exact IH.
Qed.

Lemma dict_nonempty pairs : pairs ≠ [] → dict pairs ≠ ∅.
Proof.
  unfold dict. destruct pairs as [|kv pairs]; [done|]. intros _. cbn [foldl].
  generalize (PyDict_insert_nonempty kv.1 kv.2 ∅).
  generalize (<[kv.1:=kv.2]> (∅ : PyDict)).
  induction pairs as [|kv' pairs IH]; intros d Hd; [done|].
  cbn [foldl]. apply IH, PyDict_insert_nonempty.
Qed.

(** Programs are only ever loaded together with a non-empty device mapping. *)
Lemma load_data_programs_dict dr pr :
  (load_data dr pr).1 ≠ [] → (load_data dr pr).2 ≠ ∅.
Proof.
  unfold load_data, load_data_body.
  destruct dr as [[|c cats]|e]; cbn; [done| |done].
  destruct pr as [[|p progs]|e]; cbn; [done| |done].
  intros _.
  apply (dict_nonempty
           ((DeviceCategory.id c, DeviceCategory.name c)
              :: zip (DeviceCategory.id <$> cats) (DeviceCategory.name <$> cats))).
  done.
Qed.

(** C7. If either fetch raises, or the programs fetch returns no rows, then
    the [try] body raises, the handler catches it, and [load_data] returns the
    empty table together with the empty device mapping. *)
Theorem load_data_degrades dr pr :
  (∃ e, dr = Raise e) ∨ (∃ e, pr = Raise e) ∨ pr = Ok [] →
  (∃ e, load_data_body dr pr = Raise e) ∧ load_data dr pr = ([], ∅).
Proof.
  intros H. unfold load_data.
  assert (∃ e, load_data_body dr pr = Raise e) as [e He].
  { unfold load_data_body.
    destruct dr as [[|c cats]|e]; cbn; [by eexists | | by eexists].
    destruct H as [[e [=]] | [[e ->] | ->]]; by eexists. }
  split; [by eexists|]. by rewrite He.
Qed.

Lemma load_data_degrades_witness :
  load_data (Raise (ClientError "connection refused"))
            (Ok [ {| state_province := Some "CA";
                     device_category_id := Some 1%Z |} ])
  = ([], ∅).
Proof.
  apply (load_data_degrades (Raise (ClientError "connection refused"))).
  left. by eexists.
Defined.

(** ** Grouping *)

Section groupby_facts.
Context `{EqDecision K} (le : relation K) `{!RelDecision le}.

Lemma count_key_sum k gs :
  sum_list (count_key le k gs).*2 = S (sum_list gs.*2).
Proof.
  induction gs as [|[k' n] gs IH]; [reflexivity|]. cbn [count_key].
  destruct (decide (k = k')); [reflexivity|].
  destruct (decide (le k k')); [reflexivity|].
  cbn in *. rewrite IH. lia.
Qed.

Lemma count_key_keys k gs k' :
  k' ∈ (count_key le k gs).*1 ↔ k' = k ∨ k' ∈ gs.*1.
Proof.
  induction gs as [|[k0 n] gs IH]; cbn [count_key].
  - cbn. rewrite list_elem_of_singleton, elem_of_nil. tauto.
  - destruct (decide (k = k0)) as [->|]; [|destruct (decide (le k k0))];
      cbn; rewrite ?elem_of_cons; cbn.
    + tauto.
    + tauto.
    + rewrite IH. tauto.
Qed.

Lemma count_all_sum ks gs :
  sum_list (foldl (λ groups k, count_key le k groups) gs ks).*2
  = length ks + sum_list gs.*2.
Proof.
  revert gs. induction ks as [|k ks IH]; intros gs; [reflexivity|].
  cbn [foldl]. rewrite IH, count_key_sum. cbn. lia.
Qed.

Lemma count_all_keys ks gs k' :
  k' ∈ (foldl (λ groups k, count_key le k groups) gs ks).*1
  ↔ k' ∈ ks ∨ k' ∈ gs.*1.
Proof.
  revert gs. induction ks as [|k ks IH]; intros gs; cbn [foldl].
  - rewrite elem_of_nil. tauto.
  - rewrite IH, count_key_keys, elem_of_cons. tauto.
Qed.

(** The group sizes add up to the number of rows with a key. *)
Lemma groupby_size_sum keys :
  sum_list (groupby_size le keys).*2 = length (dropna keys).
Proof. unfold groupby_size. rewrite count_all_sum. cbn. lia. Qed.

(** The groups are the keys that occur. *)
Lemma groupby_size_keys keys k :
  k ∈ (groupby_size le keys).*1 ↔ Some k ∈ keys.
Proof.
  unfold groupby_size, dropna. rewrite count_all_keys, list_elem_of_omap.
  cbn. rewrite elem_of_nil. split.
  - intros [(x & Hx & ->)|[]]. done.
  - intros Hk. left. by exists (Some k).
Qed.

Context `{!PartialOrder le, !Total le}.

Lemma count_key_sorted k gs :
  StronglySorted (strict le) gs.*1 →
  StronglySorted (strict le) (count_key le k gs).*1.
Proof.
  induction gs as [|[k' n] gs IH]; cbn [count_key].
  - intros _. cbn. repeat constructor.
  - cbn [fmap list_fmap fst]. rewrite StronglySorted_cons. intros [Hall Hgs].
    destruct (decide (k = k')) as [->|Hne];
      [|destruct (decide (le k k')) as [Hle|Hnle]];
      cbn [fmap list_fmap fst]; rewrite ?StronglySorted_cons.
    + done.
    + assert (strict le k k') as Hlt by (by apply strict_spec_alt).
      repeat split; [|done..].
      constructor; [done|].
      eapply Forall_impl; [exact Hall|]. intros x Hx. by trans k'.
    + split; [|by apply IH].
      apply Forall_forall. intros x [->|Hx]%count_key_keys.
      * by apply total_not_strict.
      * by eapply Forall_forall in Hall.
Qed.

(** The groups come out in strictly ascending key order. *)
Lemma groupby_size_sorted keys :
  StronglySorted (strict le) (groupby_size le keys).*1.
Proof.
  unfold groupby_size.
  assert (StronglySorted (strict le) ([] : list (K * nat)).*1) as Hnil
    by constructor.
  revert Hnil. generalize ([] : list (K * nat)).
  induction (dropna keys) as [|k ks IH]; intros gs Hgs; [done|].
  cbn [foldl]. by apply IH, count_key_sorted.
Qed.
End groupby_facts.

#[global] Instance key2_le_po : PartialOrder key2_le.
Proof.
  split; [split|].
  - intros a. unfold key2_le. by rewrite decide_True by done.
  - intros a b c. unfold key2_le.
    destruct (decide (a.1 = b.1)) as [Hab|Hab];
      destruct (decide (b.1 = c.1)) as [Hbc|Hbc];
      destruct (decide (a.1 = c.1)) as [Hac|Hac]; try congruence.
    + intros. by trans b.2.
    + intros H1 H2. destruct Hbc. apply (anti_symm String.le); [done|].
      by rewrite <-Hac.
    + intros. by trans b.1.
  - intros [a1 a2] [b1 b2]. unfold key2_le. cbn.
    destruct (decide (a1 = b1)) as [->|Hab].
    + rewrite decide_True by done. intros. f_equal.
      by apply (anti_symm String.le).
    + rewrite decide_False by done. intros. destruct Hab.
      by apply (anti_symm String.le).
Qed.

#[global] Instance key2_le_total : Total key2_le.
Proof.
  intros a b. unfold key2_le.
  destruct (decide (a.1 = b.1)) as [Hab|Hab].
  - rewrite decide_True by done. apply (total String.le).
  - rewrite decide_False by done. apply (total String.le).
Qed.

(** Within one region, the rows of [region_device_counts] are in strictly
    ascending order of device name. *)
Lemma region_devices_sorted (counts : list ((string * string) * nat)) reg :
  StronglySorted (strict key2_le) counts.*1 →
  StronglySorted (strict String.le) (region_devices counts reg).*1.*2.
Proof.
  unfold region_devices.
  induction counts as [|[[a d] n] counts IH]; [constructor|].
  cbn [fmap list_fmap fst]. rewrite StronglySorted_cons. intros [Hall Hs].
  rewrite filter_cons. cbn [fst]. destruct (decide (Some a = reg)) as [Ha|Ha].
  - cbn [fmap list_fmap fst snd]. apply StronglySorted_cons. split; [|by apply IH].
    apply Forall_forall. intros d'.
    intros (k & -> & Hk)%list_elem_of_fmap.
    apply list_elem_of_fmap in Hk as ([k' n'] & -> & Hin).
    apply list_elem_of_filter in Hin as [Hreg Hin]. cbn in *.
    assert (k'.1 = a) as Hk' by congruence.
    eapply Forall_forall in Hall; [|apply list_elem_of_fmap; by eexists (_, _)].
    cbn in Hall. destruct Hall as [H1 H2]. unfold key2_le in *. cbn in *.
    rewrite decide_True in H1 by done. rewrite decide_True in H2 by done.
    done.
  - by apply IH.
Qed.

(** ** The base table *)

Lemma df_us_programs_elem_of df dict r :
  r ∈ df_us_programs df dict →
  data_available df dict = true ∧
  program r ∈ df ∧
  r = add_columns (id_is_float64 df) dict (program r) ∧
  ∃ code, state_province (program r) = Some code ∧ String.length code = 2.
Proof.
  unfold df_us_programs. destruct (data_available df dict); [|by intros ?%elem_of_nil].
  intros (p & -> & [Hlen Hp]%list_elem_of_filter)%list_elem_of_fmap.
  split; [done|]. split; [done|]. split; [done|]. cbn.
  destruct (state_province p) as [code|]; [|done].
  exists code. split; [done|]. by injection Hlen.
Qed.

Lemma df_us_programs_retains df dict p code :
  p ∈ df → dict ≠ ∅ → state_province p = Some code → String.length code = 2 →
  add_columns (id_is_float64 df) dict p ∈ df_us_programs df dict.
Proof.
  intros Hp Hdict Hcode Hlen. unfold df_us_programs, data_available.
  rewrite bool_decide_eq_false_2 by (by intros ->; apply elem_of_nil in Hp).
  rewrite bool_decide_eq_false_2 by done. cbn.
  apply list_elem_of_fmap_2, list_elem_of_filter. split; [|done].
  rewrite Hcode. cbn. by rewrite Hlen.
Qed.

Lemma state_to_region_values code r :
  state_to_region !! code = Some r → r ≠ "".
Proof.
  intros Hr%elem_of_list_to_map_2.
  assert (Forall (λ kv : string * string, kv.2 ≠ "") state_to_region_items)
    as Hall by (by eapply bool_decide_unpack; vm_compute).
  rewrite Forall_forall in Hall. exact (Hall _ Hr).
Qed.

(** ** Rendering *)

Lemma hover_text_of_Some totals counts vs row :
  hover_text_of totals counts (Some vs) row =
  Ok (if bool_decide (state_region row ≠ Some "")
           && is_in (state_region row) vs
      then region_hover_text totals counts (state_region row)
      else "<b>" +:+ state row +:+ "</b><br>No data for selected filters").
Proof.
  unfold hover_text_of, region_shown.
  destruct (decide (state_region row = Some "")) as [Heq|Hne].
  - by rewrite bool_decide_eq_false_2 by (by intros ?).
  - rewrite bool_decide_eq_true_2 by done. cbn.
    by destruct (is_in (state_region row) vs).
Qed.

Lemma render_Some filtered vs :
  ∃ hover labels,
    mapM (hover_text_of (region_totals filtered) (region_device_counts filtered)
            (Some vs)) (state_totals filtered) = Ok hover ∧
    length hover = length (state_totals filtered) ∧
    render filtered (Some vs) =
    Ok ({| title := "Programs for Selected Device Types ("
                      +:+ pretty (length filtered) +:+ " total programs)";
           locations := state <$> state_totals filtered;
           z := programs <$> state_totals filtered;
           customdata := hover;
           text_traces := labels;
           margins_set := false |},
        [ H3 "Summary Statistics";
          P ("Total Programs: " +:+ pretty (length filtered));
          P ("States with Programs: "
               +:+ pretty (length (state_totals filtered)));
          P ("Regions with Programs: "
               +:+ pretty (length (region_totals filtered)));
          H4 "Programs by Device Type:";
          Ul ((λ g, g.1 +:+ ": " +:+ pretty g.2)
                <$> device_breakdown filtered) ]).
Proof.
  eexists _, _. unfold render.
  erewrite (mapM_Ok (hover_text_of _ _ (Some vs)))
    by (intros; apply hover_text_of_Some).
  split; [reflexivity|]. split; [by rewrite length_fmap|].
  cbn [mbind result_bind]. unfold set_column.
  rewrite decide_True by (by rewrite length_fmap).
  erewrite (mapM_Ok _ (λ c, (c, is_in (Some c.1) vs))) by done.
  cbn [mbind result_bind]. repeat f_equal.
  - rewrite list_fmap_compose, fst_zip; [done|]. by rewrite length_fmap.
  - rewrite list_fmap_compose, fst_zip; [done|]. by rewrite length_fmap.
  - rewrite snd_zip; [done|]. by rewrite length_fmap.
Qed.

(** With a non-empty working set the callback returns the rendered figure. *)
Lemma update_map_rendered df sd sr filtered :
  filtered_df df sd sr = Ok filtered → filtered ≠ [] →
  ∃ fig summary,
    render filtered sr = Ok (fig, summary) ∧
    update_map df sd sr = Ok (finish fig, summary) ∧
    z fig = programs <$> state_totals filtered ∧
    title fig = "Programs for Selected Device Types ("
                  +:+ pretty (length filtered) +:+ " total programs)" ∧
    P ("Total Programs: " +:+ pretty (length filtered)) ∈ summary.
Proof.
  intros Hf Hne.
  assert (df ≠ []) as Hdf.
  { intros ->. rewrite filtered_df_eq in Hf. injection Hf as <-.
    apply Hne. by destruct (_ && _). }
  destruct filtered as [|r rows]; [done|].
  destruct (filtered_df_elem_of _ _ _ _ r Hf) as (_ & _ & _ & _ & Hsr); [left|].
  apply truthy_Some in Hsr as (v & vs & ->).
  destruct (render_Some (r :: rows) (v :: vs)) as (hover & labels & _ & _ & Hr).
  eexists _, _. split; [exact Hr|].
  split; [|split; [reflexivity|split; [reflexivity|]]].
  - unfold update_map. rewrite decide_False by done.
    rewrite Hf. cbn [mbind result_bind].
    rewrite decide_True by (cbn; lia). by rewrite Hr.
  - right. left.
Qed.

(** ** Per-state counts *)

Lemma dropna_length {A B} (f : A → option B) (l : list A) :
  (∀ x, x ∈ l → is_Some (f x)) → length (dropna (f <$> l)) = length l.
Proof.
  unfold dropna. induction l as [|x l IH]; intros Hf; [reflexivity|].
  destruct (Hf x) as [y Hy]; [left|]. cbn. rewrite Hy. cbn.
  rewrite IH; [done|]. intros z Hz. apply Hf. by right.
Qed.

Lemma state_totals_programs filtered :
  programs <$> state_totals filtered
  = (groupby_size String.le (state_province ∘ program <$> filtered)).*2.
Proof. unfold state_totals. by rewrite <-list_fmap_compose. Qed.

(** Every row of the working set of a base table is counted under exactly one
    state: the per-state counts add up to the number of rows. *)
Lemma state_totals_sum df_programs device_dict sd sr filtered :
  filtered_df (df_us_programs df_programs device_dict) sd sr = Ok filtered →
  sum_list (programs <$> state_totals filtered) = length filtered.
Proof.
  intros Hf. rewrite state_totals_programs, groupby_size_sum.
  apply dropna_length. intros r Hr.
  destruct (filtered_df_elem_of _ _ _ _ r Hf Hr) as (Hin & _).
  apply df_us_programs_elem_of in Hin as (_ & _ & _ & code & Hcode & _).
  cbn. by rewrite Hcode.
Qed.

(** C3. For non-empty selected devices and regions, the per-state counts of
    the result ([state_totals], the [z] values of the figure) sum to the
    number of rows of the working set, which is the total the figure's title
    and the summary show. *)
Theorem per_state_counts_sum_to_total df_programs device_dict sd sr :
  truthy sd = true → truthy sr = true →
  ∃ filtered fig summary,
    filtered_df (df_us_programs df_programs device_dict) sd sr = Ok filtered ∧
    update_map (df_us_programs df_programs device_dict) sd sr
      = Ok (fig, summary) ∧
    sum_list (programs <$> state_totals filtered) = length filtered ∧
    sum_list (z fig) = length filtered ∧
    (filtered ≠ [] →
       title fig = "Programs for Selected Device Types ("
                     +:+ pretty (sum_list (z fig)) +:+ " total programs)" ∧
       P ("Total Programs: " +:+ pretty (sum_list (z fig))) ∈ summary).
Proof.
  intros _ _.
  set (df := df_us_programs df_programs device_dict).
  destruct (filtered_df df sd sr) as [filtered|e] eqn:Hf;
    [|by rewrite filtered_df_eq in Hf].
  pose proof (state_totals_sum _ _ _ _ _ Hf) as Hsum.
  destruct (decide (filtered = [])) as [->|Hne].
  - destruct (decide (df = [])) as [Hdf|Hdf].
    + eexists [], _, _. rewrite Hdf. split; [done|]. split; [reflexivity|].
      cbn. by repeat split.
    + eexists [], _, _. split; [done|].
      split; [unfold update_map; rewrite decide_False by done; by rewrite Hf|].
      cbn. by repeat split.
  - destruct (update_map_rendered _ _ _ _ Hf Hne)
      as (fig & summary & _ & Hmap & Hz & Htitle & Hp).
    exists filtered, (finish fig), summary.
    split; [done|]. split; [done|]. split; [done|].
    cbn [z finish title]. rewrite Hz, Hsum. by repeat split.
Qed.

Lemma per_state_counts_sum_to_total_witness :
  ∃ filtered fig summary,
    filtered_df
      (df_us_programs
         [ {| state_province := Some "CA"; device_category_id := Some 1%Z |};
           {| state_province := Some "TX"; device_category_id := Some 1%Z |} ]
         {[ 1%Z := "Solar" ]})
      (Some ["Solar"]) (Some ["West"; "Southwest"]) = Ok filtered ∧
    update_map
      (df_us_programs
         [ {| state_province := Some "CA"; device_category_id := Some 1%Z |};
           {| state_province := Some "TX"; device_category_id := Some 1%Z |} ]
         {[ 1%Z := "Solar" ]})
      (Some ["Solar"]) (Some ["West"; "Southwest"]) = Ok (fig, summary) ∧
    sum_list (z fig) = length filtered.
Proof.
  destruct (per_state_counts_sum_to_total
              [ {| state_province := Some "CA"; device_category_id := Some 1%Z |};
                {| state_province := Some "TX"; device_category_id := Some 1%Z |} ]
              {[ 1%Z := "Solar" ]} (Some ["Solar"]) (Some ["West"; "Southwest"]))
    as (filtered & fig & summary & Hf & Hmap & _ & Hz & _);
    [reflexivity | reflexivity |].
  exists filtered, fig, summary. split; [exact Hf|]. split; [exact Hmap | exact Hz].
Defined.

(** ** The hover-text branches *)

Lemma state_totals_elem_of filtered row :
  row ∈ state_totals filtered →
  state_region row = series_map state_to_region (Some (state row)) ∧
  ∃ r, r ∈ filtered ∧ state_province (program r) = Some (state row).
Proof.
  unfold state_totals.
  intros ([k n] & -> & Hg)%list_elem_of_fmap. cbn [state state_region fst].
  split; [done|].
  assert (k ∈ (groupby_size String.le (state_province ∘ program <$> filtered)).*1)
    as Hk by (apply list_elem_of_fmap; by exists (k, n)).
  apply groupby_size_keys, list_elem_of_fmap in Hk as (r & Hr & Hin).
  by exists r.
Qed.

(** C6. In the working set of a base table every state that has a per-state
    count maps to a region of the selected regions, so the test
    [region and region in selected_regions] succeeds for every row of
    [state_totals] and every hover text is the region text: the other branch
    is never taken. *)
Theorem no_data_hover_branch_unreachable df_programs device_dict sd sr filtered :
  filtered_df (df_us_programs df_programs device_dict) sd sr = Ok filtered →
  filtered ≠ [] →
  (∀ row, row ∈ state_totals filtered →
     (∃ reg, state_region row = Some reg ∧ reg ∈ default [] sr) ∧
     region_shown (state_region row) sr = Ok true) ∧
  mapM (hover_text_of (region_totals filtered) (region_device_counts filtered) sr)
       (state_totals filtered)
  = Ok ((λ row, region_hover_text (region_totals filtered)
                  (region_device_counts filtered) (state_region row))
          <$> state_totals filtered).
Proof.
  intros Hf _.
  assert (∀ row, row ∈ state_totals filtered →
     (∃ reg, state_region row = Some reg ∧ reg ∈ default [] sr) ∧
     region_shown (state_region row) sr = Ok true) as Hrows.
  { intros row (Hreg & r & Hr & Hst)%state_totals_elem_of.
    destruct (filtered_df_elem_of _ _ _ _ r Hf Hr) as (Hin & _ & Hsel & _ & Htr).
    apply df_us_programs_elem_of in Hin as (_ & _ & Hcols & _).
    assert (region r = state_region row) as Hrr.
    { rewrite Hreg, Hcols. cbn. by rewrite Hst. }
    rewrite Hrr in Hsel. destruct (state_region row) as [reg|] eqn:Hrow; [|done].
    cbn in Hsel. apply bool_decide_unpack in Hsel.
    split; [by exists reg|].
    apply truthy_Some in Htr as (v & vs & ->). unfold region_shown.
    rewrite decide_False.
    - cbn. by rewrite bool_decide_eq_true_2.
    - intros [= ->]. by eapply state_to_region_values. }
  split; [done|].
  apply mapM_Ok. intros row Hrow. unfold hover_text_of.
  destruct (Hrows row Hrow) as [_ ->]. reflexivity.
Qed.

Lemma no_data_hover_branch_unreachable_witness :
  mapM (hover_text_of
          (region_totals
             (df_us_programs
                [ {| state_province := Some "CA"; device_category_id := Some 1%Z |} ]
                {[ 1%Z := "Solar" ]}))
          (region_device_counts
             (df_us_programs
                [ {| state_province := Some "CA"; device_category_id := Some 1%Z |} ]
                {[ 1%Z := "Solar" ]}))
          (Some ["West"]))
       (state_totals
          (df_us_programs
             [ {| state_province := Some "CA"; device_category_id := Some 1%Z |} ]
             {[ 1%Z := "Solar" ]}))
  = Ok ["<b>West Region</b><br>Total Programs: 1<br><br><b>By Device Type:</b><br>Solar: 1<br>"].
Proof.
  destruct (no_data_hover_branch_unreachable
              [ {| state_province := Some "CA"; device_category_id := Some 1%Z |} ]
              {[ 1%Z := "Solar" ]} (Some ["Solar"]) (Some ["West"])
              (df_us_programs
                 [ {| state_province := Some "CA"; device_category_id := Some 1%Z |} ]
                 {[ 1%Z := "Solar" ]}))
    as [_ Hhover]; [by vm_compute | by vm_compute |].
  rewrite Hhover. by vm_compute.
Defined.

(** ** Totality *)

(** C8. [update_map] returns a figure and a summary for every table and every
    pair of selections, the empty list and None included: none of its steps
    that can raise (the [isin] and [in] tests on a selection that is None, the
    column assignment whose lengths must agree) raises. *)
Theorem update_map_total df sd sr :
  ∃ fig summary, update_map df sd sr = Ok (fig, summary).
Proof.
  destruct (decide (df = [])) as [->|Hdf]; [by eexists _, _|].
  destruct (filtered_df df sd sr) as [filtered|e] eqn:Hf;
    [|by rewrite filtered_df_eq in Hf].
  destruct (decide (filtered = [])) as [->|Hne].
  - eexists _, _. unfold update_map. rewrite decide_False by done.
    by rewrite Hf.
  - destruct (update_map_rendered _ _ _ _ Hf Hne) as (fig & summary & _ & Hmap & _).
    by eexists _, _.
Qed.

(** ** Order of the device breakdown in the hover text *)

Lemma hover_breakdown_names filtered reg :
  (hover_breakdown filtered reg).*1
  = (region_devices (region_device_counts filtered) reg).*1.*2.
Proof. unfold hover_breakdown. by rewrite <-!list_fmap_compose. Qed.

(** The hover text prints the rows of [hover_breakdown], in their order,
    after its three header lines. *)
Lemma region_hover_text_breakdown filtered reg :
  ∃ header,
    region_hover_text (region_totals filtered) (region_device_counts filtered) reg
    = foldl (λ text d, text +:+ d.1 +:+ ": " +:+ pretty d.2 +:+ "<br>")
            header (hover_breakdown filtered reg).
Proof.
  eexists. unfold region_hover_text, hover_breakdown.
  by rewrite foldl_fmap.
Qed.

(** C5, as the code has it. The device breakdown of a region's hover text is
    in strictly ascending order of device name (the key order of the
    grouping), and it lists exactly the devices that a row of the working set
    has in that region. *)
Theorem hover_breakdown_sorted_by_device_name filtered reg :
  StronglySorted (strict String.le) (hover_breakdown filtered (Some reg)).*1 ∧
  ∀ d, d ∈ (hover_breakdown filtered (Some reg)).*1 ↔
       ∃ r, r ∈ filtered ∧ region r = Some reg ∧ device_name r = Some d.
Proof.
  rewrite hover_breakdown_names. split.
  - apply region_devices_sorted, groupby_size_sorted; apply _.
  - intros d. unfold region_devices, region_device_counts. split.
    + intros (k & -> & Hk)%list_elem_of_fmap.
      apply list_elem_of_fmap in Hk as ([[a b] n] & -> & Hin).
      apply list_elem_of_filter in Hin as [[= ->] Hin]. cbn.
      assert ((reg, b) ∈ (groupby_size key2_le
                ((λ r, a ← region r; b ← device_name r; Some (a, b))
                   <$> filtered)).*1) as Hk
        by (apply list_elem_of_fmap; by exists ((reg, b), n)).
      apply groupby_size_keys, list_elem_of_fmap in Hk as (r & Hr & Hin').
      exists r. split; [done|].
      destruct (region r) as [a|], (device_name r) as [b'|]; cbn in Hr;
        try discriminate.
      by injection Hr as -> ->.
    + intros (r & Hr & Hreg & Hdev).
      assert ((reg, d) ∈ (groupby_size key2_le
                ((λ r, a ← region r; b ← device_name r; Some (a, b))
                   <$> filtered)).*1) as Hk.
      { apply groupby_size_keys, list_elem_of_fmap. exists r.
        split; [|done]. by rewrite Hreg, Hdev. }
      apply list_elem_of_fmap in Hk as ([k n] & Hk & Hin). cbn in Hk. subst k.
      apply list_elem_of_fmap. exists (reg, d). split; [done|].
      apply list_elem_of_fmap. exists ((reg, d), n). split; [done|].
      by apply list_elem_of_filter.
Qed.

(** C5, as the specification words it, fails: with two Solar rows and, after
    the first of them, one EV Charger row in the same region, the breakdown
    lists EV Charger first, while the rows mention Solar first (and Solar has
    the larger count). *)
Lemma hover_breakdown_not_in_encounter_order :
  ∃ filtered fig summary,
    let table :=
      df_us_programs
        [ {| state_province := Some "CA"; device_category_id := Some 1%Z |};
          {| state_province := Some "OR"; device_category_id := Some 2%Z |};
          {| state_province := Some "CA"; device_category_id := Some 1%Z |} ]
        (dict [ (1%Z, "Solar"); (2%Z, "EV Charger") ]) in
    filtered_df table (Some ["Solar"; "EV Charger"]) (Some ["West"])
      = Ok filtered ∧
    hover_breakdown filtered (Some "West") = [("EV Charger", 1); ("Solar", 2)] ∧
    encounter_order filtered "West" = ["Solar"; "EV Charger"] ∧
    (hover_breakdown filtered (Some "West")).*1
      ≠ encounter_order filtered "West" ∧
    update_map table (Some ["Solar"; "EV Charger"]) (Some ["West"])
      = Ok (fig, summary) ∧
    locations fig = ["CA"; "OR"] ∧
    customdata fig
    = [ "<b>West Region</b><br>Total Programs: 3<br><br><b>By Device Type:</b><br>EV Charger: 1<br>Solar: 2<br>";
        "<b>West Region</b><br>Total Programs: 3<br><br><b>By Device Type:</b><br>EV Charger: 1<br>Solar: 2<br>" ].
Proof.
  eexists _, _, _. cbn zeta.
  split; [by vm_compute|]. split; [by vm_compute|]. split; [by vm_compute|].
  split; [by vm_compute|]. split; [by vm_compute|]. split; by vm_compute.
Qed.

(** ** Rows without a region or without a device name *)

Lemma dropna_null {A} (k1 k2 : list (option A)) :
  dropna (k1 ++ None :: k2) = dropna (k1 ++ k2).
Proof. unfold dropna. by rewrite !omap_app. Qed.

(** A row without a region is in no group of the region-scoped groupings,
    whatever the other rows are. *)
Lemma region_groupings_skip_null rows1 rows2 r :
  region r = None →
  region_totals (rows1 ++ r :: rows2) = region_totals (rows1 ++ rows2) ∧
  region_device_counts (rows1 ++ r :: rows2)
    = region_device_counts (rows1 ++ rows2).
Proof.
  intros Hr. unfold region_totals, region_device_counts, groupby_size.
  rewrite !fmap_app, !fmap_cons, Hr. cbn [mbind option_bind].
  by rewrite !dropna_null.
Qed.

(** C9. Of the programs that [load_data] returned, the base table leaves out
    every one whose location code does not have length 2. One whose code has
    length 2 but no entry in [state_to_region] is in the base table with a null
    region; no working set contains it (the working set is the one of the table
    without that row), and the per-region totals and per-region-per-device
    counts of any rows are the same with and without it. *)
Theorem unmapped_state_rows dr pr p :
  p ∈ (load_data dr pr).1 →
  (str_len (state_province p) ≠ Some 2 →
     ∀ r, r ∈ df_us_programs (load_data dr pr).1 (load_data dr pr).2 →
          program r ≠ p) ∧
  (str_len (state_province p) = Some 2 →
   series_map state_to_region (state_province p) = None →
     ∃ r, r ∈ df_us_programs (load_data dr pr).1 (load_data dr pr).2 ∧
          program r = p ∧ region r = None ∧
          (∀ sd sr, ∃ filtered,
             filtered_df (df_us_programs (load_data dr pr).1 (load_data dr pr).2)
                         sd sr = Ok filtered ∧
             (r ∉ filtered) ∧
             (∀ t1 t2,
                df_us_programs (load_data dr pr).1 (load_data dr pr).2
                  = t1 ++ r :: t2 →
                filtered_df (t1 ++ t2) sd sr = Ok filtered)) ∧
          (∀ rows1 rows2,
             region_totals (rows1 ++ r :: rows2)
               = region_totals (rows1 ++ rows2) ∧
             region_device_counts (rows1 ++ r :: rows2)
               = region_device_counts (rows1 ++ rows2))).
Proof.
  intros Hp. split.
  - intros Hlen r (_ & _ & _ & code & Hcode & Hcode_len)%df_us_programs_elem_of Heq.
    apply Hlen. rewrite <-Heq. rewrite Hcode. cbn. by rewrite Hcode_len.
  - intros Hlen Hreg.
    assert ((load_data dr pr).2 ≠ ∅) as Hdict.
    { apply load_data_programs_dict. intros Hnil. rewrite Hnil in Hp.
      by apply elem_of_nil in Hp. }
    destruct (state_province p) as [code|] eqn:Hcode; [|done].
    injection Hlen as Hlen.
    exists (add_columns (id_is_float64 (load_data dr pr).1)
                        (load_data dr pr).2 p).
    split; [by eapply df_us_programs_retains|].
    split; [done|].
    assert (region (add_columns (id_is_float64 (load_data dr pr).1)
                                (load_data dr pr).2 p) = None) as Hnone
      by (cbn; by rewrite Hcode).
    split; [done|]. split.
    + intros sd sr.
      destruct (filtered_df _ sd sr) as [filtered|e] eqn:Hf;
        [|by rewrite filtered_df_eq in Hf].
      exists filtered. split; [done|]. split.
      * intros Hin.
        destruct (filtered_df_elem_of _ _ _ _ _ Hf Hin) as (_ & _ & Hsel & _).
        rewrite Hnone in Hsel. by apply is_in_None in Hsel.
      * intros t1 t2 Ht. rewrite <-Hf, Ht. symmetry.
        apply filtered_df_delete. right. intros vs.
        rewrite Hnone. apply is_in_None.
    + intros rows1 rows2. by apply region_groupings_skip_null.
Qed.

Lemma unmapped_state_rows_witness :
  ∃ r filtered,
    r ∈ df_us_programs
          [ {| state_province := Some "DC"; device_category_id := Some 1%Z |};
            {| state_province := Some "CA"; device_category_id := Some 1%Z |} ]
          {[ 1%Z := "Solar" ]} ∧
    state_province (program r) = Some "DC" ∧ region r = None ∧
    filtered_df
      (df_us_programs
         [ {| state_province := Some "DC"; device_category_id := Some 1%Z |};
           {| state_province := Some "CA"; device_category_id := Some 1%Z |} ]
         {[ 1%Z := "Solar" ]})
      (Some ["Solar"]) (Some ["West"]) = Ok filtered ∧
    r ∉ filtered.
Proof.
  destruct (unmapped_state_rows
              (Ok [ DeviceCategory.mk 1 "Solar" ])
              (Ok [ {| state_province := Some "DC";
                       device_category_id := Some 1%Z |};
                    {| state_province := Some "CA";
                       device_category_id := Some 1%Z |} ])
              {| state_province := Some "DC"; device_category_id := Some 1%Z |})
    as [_ Hdc]; [left|].
  destruct Hdc as (r & Hr & Hp & Hreg & Hsel & _); [reflexivity | by vm_compute |].
  destruct (Hsel (Some ["Solar"]) (Some ["West"])) as (filtered & Hf & Hnot & _).
  exists r, filtered.
  split; [exact Hr|]. split; [by rewrite Hp|]. split; [exact Hreg|].
  split; [exact Hf | exact Hnot].
Defined.

(** ** The device filter's options *)

Lemma unique_acc `{EqDecision A} (l seen : list A) :
  NoDup seen →
  NoDup (foldl (λ seen x, if decide (x ∈ seen) then seen else seen ++ [x])
               seen l) ∧
  ∀ x, x ∈ foldl (λ seen x, if decide (x ∈ seen) then seen else seen ++ [x])
                 seen l
       ↔ x ∈ seen ∨ x ∈ l.
Proof.
  revert seen. induction l as [|y l IH]; intros seen Hseen; cbn [foldl].
  - split; [done|]. intros x. rewrite elem_of_nil. tauto.
  - destruct (decide (y ∈ seen)) as [Hy|Hy].
    + destruct (IH seen Hseen) as [Hnd Hin]. split; [done|].
      intros x. rewrite Hin, elem_of_cons.
      split; [tauto | intros [?|[->|?]]; tauto].
    + destruct (IH (seen ++ [y])) as [Hnd Hin].
      { apply NoDup_app. split; [done|]. split; [|apply NoDup_singleton].
        intros x Hx ->%list_elem_of_singleton. done. }
      split; [done|]. intros x.
      rewrite Hin, elem_of_app, list_elem_of_singleton, elem_of_cons. tauto.
Qed.

Lemma unique_NoDup `{EqDecision A} (l : list A) : NoDup (unique l).
Proof. apply unique_acc, NoDup_nil_2. Qed.

Lemma unique_elem_of `{EqDecision A} (l : list A) x : x ∈ unique l ↔ x ∈ l.
Proof.
  unfold unique. destruct (unique_acc l [] (NoDup_nil_2)) as [_ ->].
  rewrite elem_of_nil. tauto.
Qed.

(** The options are the device names present in the base table, each once, in
    ascending order. *)
Lemma device_options_spec df_programs device_dict :
  Sorted String.le (device_options df_programs device_dict) ∧
  NoDup (device_options df_programs device_dict) ∧
  ∀ x, x ∈ device_options df_programs device_dict ↔
       ∃ r, r ∈ df_us_programs df_programs device_dict ∧ device_name r = Some x.
Proof.
  unfold device_options.
  destruct (data_available df_programs device_dict) eqn:Hav.
  - unfold sorted. split; [apply Sorted_merge_sort, _|]. split.
    + rewrite merge_sort_Permutation. apply unique_NoDup.
    + intros x. rewrite merge_sort_Permutation, unique_elem_of.
      unfold dropna. rewrite list_elem_of_omap. split.
      * intros (o & (r & -> & Hr)%list_elem_of_fmap & Ho). by exists r.
      * intros (r & Hr & Hx). exists (Some x). split; [|done].
        apply list_elem_of_fmap. by exists r.
  - split; [constructor|]. split; [constructor|].
    intros x. unfold df_us_programs. rewrite Hav. split.
    + by intros ?%elem_of_nil.
    + by intros (r & ?%elem_of_nil & _).
Qed.

(** *** Ids that the frame holds exactly *)

Lemma filter_none {A} (P : A → Prop) `{!∀ x, Decision (P x)} (l : list A) :
  (∀ x, x ∈ l → ¬ P x) → filter P l = [].
Proof.
  induction l as [|x l IH]; intros Hl; [done|].
  rewrite filter_cons, decide_False by (apply Hl; left).
  apply IH. intros y Hy. apply Hl. by right.
Qed.

Lemma float64_of_int_small i : (Z.abs i < 2 ^ 53)%Z → float64_of_int i = i.
Proof.
  intros Hi. unfold float64_of_int.
  rewrite bool_decide_eq_true_2; [done|].
  destruct (decide (Z.abs i = 0%Z)) as [Hz|Hne]; [rewrite Hz; done|].
  assert (Z.log2 (Z.abs i) < 53)%Z; [|lia].
  apply Z.log2_lt_pow2; lia.
Qed.



Lemma id_is_float64_false df p :
  id_is_float64 df = false → p ∈ df → device_category_id p ≠ None.
Proof.
  unfold id_is_float64. induction df as [|q df IH]; [by intros _ ?%elem_of_nil|].
  cbn [existsb]. intros [Hq Hdf]%orb_false_iff [->|Hin]%elem_of_cons.
  - by apply bool_decide_eq_false in Hq.
  - by apply IH.
Qed.








(** * Further properties *)

(** ** The device mapping and the loaded data *)

Lemma dict_snoc pairs kv : dict (pairs ++ [kv]) = <[kv.1 := kv.2]> (dict pairs).
Proof. unfold dict. by rewrite foldl_app. Qed.

Lemma dict_lookup pairs k :
  dict pairs !! k = snd <$> last (filter (λ kv, kv.1 = k) pairs).
Proof.
  induction pairs as [|kv pairs IH] using rev_ind; [done|].
  rewrite dict_snoc, PyDict_lookup_insert, filter_app, filter_cons, filter_nil.
  destruct (decide (kv.1 = k)) as [<-|Hne].
  - by rewrite last_snoc.
  - by rewrite app_nil_r.
Qed.

Lemma filter_fmap {A B} (f : A → B) (P : B → Prop) `{!∀ y, Decision (P y)}
    (l : list A) :
  filter P (f <$> l) = f <$> filter (λ x, P (f x)) l.
Proof.
  induction l as [|x l IH]; [done|].
  rewrite fmap_cons, !filter_cons, IH. by destruct (decide (P (f x))).
Qed.

Lemma zip_columns (cats : list DeviceCategory.t) :
  zip (DeviceCategory.id <$> cats) (DeviceCategory.name <$> cats)
  = (λ c, (DeviceCategory.id c, DeviceCategory.name c)) <$> cats.
Proof. induction cats as [|c cats IH]; [done|]. cbn. by rewrite IH. Qed.

(** X2. In the mapping built from the device categories, an id maps to the
    name of the last category row that carries it, and to nothing when no row
    carries it. *)
Theorem device_dict_last_row_wins (cats : list DeviceCategory.t) k :
  dict (zip (DeviceCategory.id <$> cats) (DeviceCategory.name <$> cats)) !! k
  = DeviceCategory.name <$> last (filter (λ c, DeviceCategory.id c = k) cats).
Proof.
  rewrite dict_lookup, zip_columns, filter_fmap, fmap_last.
  by destruct (last _).
Qed.

Lemma DataFrame_rows programs_data :
  Forall2 (λ p q,
             state_province q = state_province p ∧
             ((id_is_float64 programs_data = false ∨
               ∀ i, device_category_id p = Some i → (Z.abs i < 2 ^ 53)%Z) →
              q = p))
          programs_data (DataFrame programs_data).
Proof.
  unfold DataFrame. destruct (id_is_float64 programs_data) eqn:Hf.
  - clear Hf. induction programs_data as [|p l IH]; [constructor|].
    rewrite fmap_cons. constructor; [|exact IH]. split; [done|].
    intros [|Hsmall]; [done|].
    destruct p as [st [i|]]; cbn in *; [|done].
    by rewrite float64_of_int_small by (by apply Hsmall).
  - clear Hf. induction programs_data as [|p l IH]; constructor;
      [by split | exact IH].
Qed.

(** X1. [load_data] is all or nothing: its table is empty exactly when its
    mapping is, and the only way to get data is that both fetches returned
    rows. The table is then the frame of the fetched programs: the same rows
    in the same order, with their location codes, and each row unchanged when
    no program id is null, or its own id is null or below 2^53 in magnitude.
    The mapping is the one built from the fetched categories. *)
Theorem load_data_all_or_nothing dr pr :
  ((load_data dr pr).1 = [] ↔ (load_data dr pr).2 = ∅) ∧
  (load_data dr pr = ([], ∅) ∨
   ∃ cats progs,
     dr = Ok cats ∧ pr = Ok progs ∧ cats ≠ [] ∧ progs ≠ [] ∧
     (load_data dr pr).2
     = dict (zip (DeviceCategory.id <$> cats) (DeviceCategory.name <$> cats)) ∧
     Forall2 (λ p q,
                state_province q = state_province p ∧
                ((id_is_float64 progs = false ∨
                  ∀ i, device_category_id p = Some i → (Z.abs i < 2 ^ 53)%Z) →
                 q = p))
             progs (load_data dr pr).1).
Proof.
  assert (load_data dr pr = ([], ∅) ∨
   ∃ cats progs,
     dr = Ok cats ∧ pr = Ok progs ∧ cats ≠ [] ∧ progs ≠ [] ∧
     load_data dr pr
     = (DataFrame progs,
        dict (zip (DeviceCategory.id <$> cats) (DeviceCategory.name <$> cats))))
    as Hcases.
  { destruct dr as [[|c cats]|e]; [by left| |by left].
    destruct pr as [[|p progs]|e]; [by left| |by left].
    right. by exists (c :: cats), (p :: progs). }
  destruct Hcases as [->|(cats & progs & -> & -> & Hc & Hp & Hload)];
    [split; [done | by left]|].
  rewrite Hload. cbn [fst snd]. split.
  - split.
    + intros Hnil. pose proof (DataFrame_rows progs) as Hrows.
      rewrite Hnil in Hrows. apply Forall2_nil_inv_r in Hrows. done.
    + intros Hd. exfalso. revert Hd.
      apply dict_nonempty. destruct cats; [done|]. by cbn.
  - right. exists cats, progs.
    split; [done|]. split; [done|]. split; [done|]. split; [done|].
    split; [done|]. apply DataFrame_rows.
Qed.

(** When the device-categories fetch returns no rows, reading its [id]
    column raises KeyError inside the [try]; the load fails as a whole, even
    if the programs fetch would have returned rows. *)
Lemma load_data_no_device_rows pr :
  load_data_body (Ok []) pr = Raise (KeyError "id") ∧
  load_data (Ok []) pr = ([], ∅).
Proof. by split. Qed.

(** ** The load warning *)

(** X12. The load warning is shown exactly when [load_data] returned no
    programs. When it is shown there are no device options and [update_map]
    returns the no-data result for every pair of selections. *)
Theorem warning_iff_load_failed dr pr :
  (show_error_message (load_data dr pr).1 (load_data dr pr).2 = Text ""
   ↔ (load_data dr pr).1 ≠ []) ∧
  (show_error_message (load_data dr pr).1 (load_data dr pr).2 ≠ Text "" →
   device_options (load_data dr pr).1 (load_data dr pr).2 = [] ∧
   ∀ sd sr,
     update_map (df_us_programs (load_data dr pr).1 (load_data dr pr).2) sd sr
     = Ok no_data).
Proof.
  assert (show_error_message (load_data dr pr).1 (load_data dr pr).2 = Text ""
          ↔ (load_data dr pr).1 ≠ []) as Hiff.
  { unfold show_error_message. split.
    - intros Hshow Hnil. by rewrite Hnil in Hshow.
    - intros Hne. pose proof (load_data_programs_dict _ _ Hne) as Hd.
      by rewrite !bool_decide_eq_false_2. }
  split; [done|]. intros Hshow.
  assert ((load_data dr pr).1 = []) as Hnil.
  { destruct (decide ((load_data dr pr).1 = [])); [done|].
    destruct Hshow. by apply Hiff. }
  unfold device_options, df_us_programs, data_available. by rewrite Hnil.
Qed.

(** X13. No warning does not mean there is data: if programs were loaded but
    none of them has a two-character location code, no warning is shown, yet
    there are no device options and [update_map] returns the no-data result
    for every pair of selections. *)
Theorem no_two_letter_codes df_programs device_dict sd sr :
  df_programs ≠ [] → device_dict ≠ ∅ →
  (∀ p, p ∈ df_programs → str_len (state_province p) ≠ Some 2) →
  show_error_message df_programs device_dict = Text "" ∧
  device_options df_programs device_dict = [] ∧
  update_map (df_us_programs df_programs device_dict) sd sr = Ok no_data.
Proof.
  intros Hdf Hdict Hcodes.
  assert (df_us_programs df_programs device_dict = []) as Htable.
  { unfold df_us_programs. destruct (data_available _ _); [|done].
    by rewrite filter_none. }
  split; [|split].
  - unfold show_error_message. by rewrite !bool_decide_eq_false_2.
  - unfold device_options. rewrite Htable. by destruct (data_available _ _).
  - by rewrite Htable.
Qed.

Lemma no_two_letter_codes_witness :
  show_error_message
    [ {| state_province := Some "Ontario"; device_category_id := Some 1%Z |} ]
    {[ 1%Z := "Solar" ]} = Text "" ∧
  update_map
    (df_us_programs
       [ {| state_province := Some "Ontario"; device_category_id := Some 1%Z |} ]
       {[ 1%Z := "Solar" ]})
    (Some ["Solar"]) (Some ["West"]) = Ok no_data.
Proof.
  destruct (no_two_letter_codes
              [ {| state_province := Some "Ontario";
                   device_category_id := Some 1%Z |} ]
              {[ 1%Z := "Solar" ]} (Some ["Solar"]) (Some ["West"]))
    as (Hshow & _ & Hmap).
  - discriminate.
  - discriminate.
  - intros p ->%list_elem_of_singleton. by vm_compute.
  - split; [exact Hshow | exact Hmap].
Defined.

(** ** What the group sizes count *)

Section groupby_counts.
Context `{EqDecision K} (le : relation K) `{!RelDecision le}.
Context (P : K → Prop) `{!∀ k, Decision (P k)}.

Lemma count_key_filter k gs :
  sum_list (filter (λ g, P g.1) (count_key le k gs)).*2
  = sum_list (filter (λ g, P g.1) gs).*2 + (if decide (P k) then 1 else 0).
Proof.
  induction gs as [|[k' n] gs IH]; cbn [count_key].
  - rewrite filter_cons, filter_nil. cbn [fst]. by destruct (decide (P k)).
  - destruct (decide (k = k')) as [->|Hne];
      [|destruct (decide (le k k')) as [Hle|Hnle]];
      rewrite !filter_cons; cbn [fst].
    + destruct (decide (P k')); cbn; lia.
    + destruct (decide (P k)), (decide (P k')); cbn; lia.
    + destruct (decide (P k')); cbn; rewrite IH; lia.
Qed.

Lemma count_all_filter ks gs :
  sum_list (filter (λ g, P g.1)
              (foldl (λ groups k, count_key le k groups) gs ks)).*2
  = sum_list (filter (λ g, P g.1) gs).*2 + length (filter P ks).
Proof.
  revert gs. induction ks as [|k ks IH]; intros gs; cbn [foldl].
  - rewrite filter_nil. cbn. lia.
  - rewrite IH, count_key_filter, filter_cons.
    destruct (decide (P k)); cbn; lia.
Qed.

(** The sizes of the groups whose key satisfies [P] add up to the number of
    rows whose key does. *)
Lemma groupby_size_filter keys :
  sum_list (filter (λ g, P g.1) (groupby_size le keys)).*2
  = length (filter P (dropna keys)).
Proof. unfold groupby_size. rewrite count_all_filter, filter_nil. cbn. lia. Qed.

Lemma count_key_positive k gs :
  Forall (λ g, 0 < g.2) gs → Forall (λ g, 0 < g.2) (count_key le k gs).
Proof.
  induction gs as [|[k' n] gs IH]; cbn [count_key]; intros Hgs.
  - repeat constructor.
  - apply Forall_cons in Hgs as [Hn Hgs]. cbn in Hn.
    destruct (decide (k = k')); [|destruct (decide (le k k'))];
      repeat (constructor; cbn; try lia); auto.
Qed.

Lemma groupby_size_positive keys :
  Forall (λ g, 0 < g.2) (groupby_size le keys).
Proof.
  unfold groupby_size.
  assert (Forall (λ g : K * nat, 0 < g.2) []) as Hnil by constructor.
  revert Hnil. generalize ([] : list (K * nat)).
  induction (dropna keys) as [|k ks IH]; intros gs Hgs; [done|].
  cbn [foldl]. by apply IH, count_key_positive.
Qed.
End groupby_counts.

Lemma dropna_filter_length {A B} (f : A → option B) (P : B → Prop)
    `{!∀ k, Decision (P k)} (l : list A) :
  length (filter P (dropna (f <$> l)))
  = length (filter (λ x, from_option P False (f x)) l).
Proof.
  unfold dropna. induction l as [|x l IH]; [done|].
  rewrite fmap_cons, (filter_cons _ x). cbn [omap list_omap].
  destruct (f x) as [k|]; cbn [id from_option].
  - rewrite filter_cons. destruct (decide (P k)); cbn; by rewrite IH.
  - rewrite decide_False by tauto. done.
Qed.

Lemma filter_length_iff {A} (P Q : A → Prop)
    `{!∀ x, Decision (P x), !∀ x, Decision (Q x)} (l : list A) :
  (∀ x, P x ↔ Q x) → length (filter P l) = length (filter Q l).
Proof. intros HPQ. by rewrite (list_filter_iff P Q). Qed.

Lemma sorted_keys_NoDup {K} (le : relation K) (l : list K) :
  StronglySorted (strict le) l → NoDup l.
Proof.
  induction l as [|x l IH]; [constructor|].
  rewrite StronglySorted_cons. intros [Hall Hl]. constructor; [|by apply IH].
  intros Hx. rewrite Forall_forall in Hall. by destruct (Hall x Hx) as [? []].
Qed.

Lemma filter_key_singleton `{EqDecision K} (gs : list (K * nat)) k n :
  NoDup gs.*1 → (k, n) ∈ gs → filter (λ g, g.1 = k) gs = [(k, n)].
Proof.
  induction gs as [|[k' n'] gs IH]; [by intros _ ?%elem_of_nil|].
  cbn [fmap list_fmap fst]. rewrite NoDup_cons. intros [Hk' Hnd].
  rewrite elem_of_cons, filter_cons. cbn [fst].
  intros [[= <- <-]|Hin].
  - rewrite decide_True by done. f_equal.
    apply filter_none. intros [k0 n0] Hin ?. simplify_eq/=.
    apply Hk', list_elem_of_fmap. by exists (k, n0).
  - rewrite decide_False; [by apply IH|].
    intros ->. apply Hk', list_elem_of_fmap. by exists (k, n).
Qed.

(** A group and its size are in the result exactly when the size is the
    number of rows with that key, and there is such a row. *)
Lemma groupby_size_elem_of `{EqDecision K} (le : relation K)
    `{!RelDecision le, !PartialOrder le, !Total le} (keys : list (option K)) k n :
  (k, n) ∈ groupby_size le keys
  ↔ 0 < n ∧ n = length (filter (λ x, x = Some k) keys).
Proof.
  assert (sum_list (filter (λ g, g.1 = k) (groupby_size le keys)).*2
          = length (filter (λ x, x = Some k) keys)) as Hcount.
  { etrans;
      [apply (@groupby_size_filter _ _ le _ (λ k', k' = k)
                (λ k', decide_rel (=) k' k) keys)|].
    unfold dropna. clear. induction keys as [|[k'|] keys IH]; [done|..];
      cbn [omap list_omap id]; rewrite !filter_cons.
    - destruct (decide (k' = k)) as [->|Hne].
      + rewrite decide_True by done. cbn. by rewrite IH.
      + rewrite decide_False by congruence. done.
    - rewrite decide_False by done. done. }
  assert (∀ n', (k, n') ∈ groupby_size le keys →
                0 < n' ∧ n' = length (filter (λ x, x = Some k) keys)) as Hin.
  { intros n' Hn'. split.
    - pose proof (groupby_size_positive le keys) as Hpos.
      rewrite Forall_forall in Hpos. exact (Hpos _ Hn').
    - rewrite <-Hcount, (filter_key_singleton _ k n'); [cbn; lia| |done].
      eapply sorted_keys_NoDup, groupby_size_sorted; apply _. }
  split; [apply Hin|]. intros [Hpos ->].
  assert (Some k ∈ keys) as Hk.
  { destruct (filter (λ x, x = Some k) keys) as [|x l] eqn:Hf; [cbn in Hpos; lia|].
    assert (x ∈ filter (λ x, x = Some k) keys) as Hx by (rewrite Hf; left).
    by apply list_elem_of_filter in Hx as [-> ?]. }
  apply (groupby_size_keys le) in Hk.
  apply list_elem_of_fmap in Hk as ([k' n'] & Hk' & Hg). cbn in Hk'. subst k'.
  by destruct (Hin n' Hg) as [_ <-].
Qed.

Lemma groupby_string_elem_of (keys : list (option string)) k n :
  (k, n) ∈ groupby_size String.le keys
  ↔ 0 < n ∧ n = length (filter (λ x, x = Some k) keys).
Proof. apply groupby_size_elem_of; apply _. Qed.

Lemma groupby_key2_elem_of (keys : list (option (string * string))) k n :
  (k, n) ∈ groupby_size key2_le keys
  ↔ 0 < n ∧ n = length (filter (λ x, x = Some k) keys).
Proof. apply groupby_size_elem_of; apply _. Qed.

Lemma filter_fmap_length {A B} (f : A → B) (P : B → Prop)
    `{!∀ y, Decision (P y)} (l : list A) :
  length (filter P (f <$> l)) = length (filter (λ x, P (f x)) l).
Proof. by rewrite filter_fmap, length_fmap. Qed.

Lemma region_device_key r reg d :
  (a ← region r; b ← device_name r; Some (a, b)) = Some (reg, d)
  ↔ region r = Some reg ∧ device_name r = Some d.
Proof.
  destruct (region r) as [a|], (device_name r) as [b|]; cbn;
    split; try (intros [? ?]); try intros ?; simplify_eq; done.
Qed.

(** X4. Each group size is the number of rows of the grouped frame with that
    key, and only keys with at least one row have a group: per state, per
    region, and per region and device. *)
Theorem group_sizes_count_rows filtered :
  (∀ row, row ∈ state_totals filtered ↔
     0 < programs row ∧
     programs row
     = length (filter (λ r, state_province (program r) = Some (state row))
                      filtered) ∧
     state_region row = state_to_region !! state row) ∧
  (∀ reg n, (reg, n) ∈ region_totals filtered ↔
     0 < n ∧ n = length (filter (λ r, region r = Some reg) filtered)) ∧
  (∀ reg d n, ((reg, d), n) ∈ region_device_counts filtered ↔
     0 < n ∧
     n = length (filter (λ r, region r = Some reg ∧ device_name r = Some d)
                        filtered)).
Proof.
  split; [|split].
  - intros row. unfold state_totals. rewrite list_elem_of_fmap. split.
    + intros ([k n] & -> & Hg). cbn [state programs state_region fst snd].
      apply groupby_string_elem_of in Hg as [Hpos ->].
      split; [done|]. split; [|done].
      by rewrite filter_fmap_length.
    + destruct row as [st n reg]. cbn [state programs state_region].
      intros (Hpos & Hn & Hreg). exists (st, n). split; [by rewrite Hreg|].
      apply groupby_string_elem_of. split; [done|]. rewrite Hn.
      by rewrite filter_fmap_length.
  - intros reg n. unfold region_totals. rewrite groupby_string_elem_of.
    by rewrite filter_fmap_length.
  - intros reg d n. unfold region_device_counts. rewrite groupby_key2_elem_of.
    rewrite filter_fmap_length.
    rewrite (filter_length_iff _
               (λ r, region r = Some reg ∧ device_name r = Some d));
      [done|]. intros r. apply region_device_key.
Qed.

Lemma filter_length_ext {A} (P Q : A → Prop)
    `{!∀ x, Decision (P x), !∀ x, Decision (Q x)} (l : list A) :
  (∀ x, x ∈ l → P x ↔ Q x) → length (filter P l) = length (filter Q l).
Proof.
  induction l as [|x l IH]; intros HPQ; [done|].
  rewrite !filter_cons.
  assert (P x ↔ Q x) as Hx by (apply HPQ; left).
  assert (length (filter P l) = length (filter Q l)) as Hl
    by (apply IH; intros y Hy; apply HPQ; by right).
  destruct (decide (P x)), (decide (Q x)); cbn; try tauto; lia.
Qed.

(** ** The summary's device list *)

Lemma insert_asc_perm g acc : insert_asc g acc ≡ₚ g :: acc.
Proof.
  induction acc as [|h acc IH]; [done|]. cbn [insert_asc].
  destruct (decide (g.2 ≤ h.2)); [done|].
  rewrite IH. apply Permutation_swap.
Qed.

Lemma sort_values_desc_perm groups : sort_values_desc groups ≡ₚ groups.
Proof.
  unfold sort_values_desc. rewrite reverse_Permutation.
  induction groups as [|g groups IH]; [done|]. cbn [foldr].
  by rewrite insert_asc_perm, IH.
Qed.

Lemma insert_asc_sorted g acc :
  StronglySorted (λ a b : string * nat, a.2 ≤ b.2) acc →
  StronglySorted (λ a b : string * nat, a.2 ≤ b.2) (insert_asc g acc).
Proof.
  induction acc as [|h acc IH]; [repeat constructor|].
  rewrite StronglySorted_cons. intros [Hall Hacc]. cbn [insert_asc].
  destruct (decide (g.2 ≤ h.2)) as [Hle|Hgt]; apply StronglySorted_cons.
  - split; [|by apply StronglySorted_cons].
    constructor; [done|]. eapply Forall_impl; [exact Hall|]. cbn. lia.
  - split; [|by apply IH]. rewrite insert_asc_perm. constructor; [lia|done].
Qed.

Lemma StronglySorted_reverse {A} (R : relation A) (l : list A) :
  StronglySorted R l → StronglySorted (flip R) (reverse l).
Proof.
  induction l as [|x l IH]; [constructor|].
  rewrite StronglySorted_cons, reverse_cons. intros [Hall Hl].
  apply StronglySorted_app. split; [|split; [by apply IH | repeat constructor]].
  intros y1 y2 Hy1 ->%list_elem_of_singleton.
  rewrite elem_of_reverse in Hy1.
  rewrite Forall_forall in Hall. unfold flip. by apply Hall.
Qed.

Lemma sort_values_desc_sorted groups :
  StronglySorted (λ a b : string * nat, b.2 ≤ a.2) (sort_values_desc groups).
Proof.
  unfold sort_values_desc.
  apply (StronglySorted_reverse (λ a b : string * nat, a.2 ≤ b.2)).
  induction groups as [|g groups IH]; [constructor|].
  cbn [foldr]. by apply insert_asc_sorted.
Qed.

(** X16. The device list of the summary has one entry per device of the
    working set, each with the number of rows of that device, and the entries
    are in descending order of that number. *)
Theorem device_breakdown_descending filtered :
  StronglySorted (λ a b, b.2 ≤ a.2) (device_breakdown filtered) ∧
  NoDup (device_breakdown filtered).*1 ∧
  ∀ d n, (d, n) ∈ device_breakdown filtered ↔
         0 < n ∧ n = length (filter (λ r, device_name r = Some d) filtered).
Proof.
  unfold device_breakdown. split; [apply sort_values_desc_sorted|]. split.
  - rewrite sort_values_desc_perm.
    eapply sorted_keys_NoDup, groupby_size_sorted; apply _.
  - intros d n. rewrite sort_values_desc_perm, groupby_string_elem_of.
    by rewrite filter_fmap_length.
Qed.

(** ** Totals of the working set *)

Lemma filtered_df_cells df sd sr filtered r :
  filtered_df df sd sr = Ok filtered → r ∈ filtered →
  is_Some (device_name r) ∧ is_Some (region r).
Proof.
  intros Hf Hr.
  destruct (filtered_df_elem_of _ _ _ _ r Hf Hr) as (_ & Hd & Hg & _).
  destruct (device_name r), (region r); cbn in *; try done; by split.
Qed.

(** X5. For every table, the per-region totals, the per-region-per-device
    counts and the per-device counts of the summary each add up to the number
    of rows of the working set. *)
Theorem group_sizes_sum_to_total df sd sr :
  ∃ filtered,
    filtered_df df sd sr = Ok filtered ∧
    sum_list (region_totals filtered).*2 = length filtered ∧
    sum_list (region_device_counts filtered).*2 = length filtered ∧
    sum_list (device_breakdown filtered).*2 = length filtered.
Proof.
  destruct (filtered_df df sd sr) as [filtered|e] eqn:Hf;
    [|by rewrite filtered_df_eq in Hf].
  exists filtered. split; [done|].
  pose proof (λ r, filtered_df_cells _ _ _ _ r Hf) as Hcells.
  split; [|split].
  - unfold region_totals. rewrite groupby_size_sum.
    apply dropna_length. intros r Hr. by apply Hcells.
  - unfold region_device_counts. rewrite groupby_size_sum.
    apply dropna_length. intros r Hr.
    destruct (Hcells r Hr) as [[d ->] [g ->]]. by eexists.
  - unfold device_breakdown. rewrite sort_values_desc_perm, groupby_size_sum.
    apply dropna_length. intros r Hr. by apply Hcells.
Qed.

(** ** Totals in the hover text *)

Lemma region_total_lookup filtered reg :
  match filter (λ g, Some g.1 = Some reg) (region_totals filtered) with
  | g :: _ => g.2
  | [] => 0
  end = length (filter (λ r, region r = Some reg) filtered).
Proof.
  assert (∀ g, g ∈ filter (λ g, Some g.1 = Some reg) (region_totals filtered) →
               g.2 = length (filter (λ r, region r = Some reg) filtered)) as Hin.
  { intros [reg' n] [[= ->] Hg]%list_elem_of_filter. cbn.
    unfold region_totals in Hg. apply groupby_string_elem_of in Hg as [_ ->].
    by rewrite filter_fmap_length. }
  destruct (filter _ (region_totals filtered)) as [|g gs] eqn:Hfilter.
  - destruct (length (filter (λ r, region r = Some reg) filtered)) as [|n] eqn:Hn;
      [done|].
    assert ((reg, S n) ∈ region_totals filtered) as Hg.
    { unfold region_totals. apply groupby_string_elem_of. split; [lia|].
      by rewrite filter_fmap_length. }
    assert ((reg, S n) ∈ filter (λ g, Some g.1 = Some reg) (region_totals filtered))
      as Hg' by (by apply list_elem_of_filter).
    rewrite Hfilter in Hg'. by apply elem_of_nil in Hg'.
  - apply Hin. left.
Qed.

(** X6. For every region, the hover text is the header with the region's name
    and the number of working-set rows in that region, followed by one line
    per entry of the device breakdown; and the counts of those entries add up
    to that number. *)
Theorem hover_text_totals df sd sr :
  ∃ filtered,
    filtered_df df sd sr = Ok filtered ∧
    ∀ reg,
      region_hover_text (region_totals filtered) (region_device_counts filtered)
                        (Some reg)
      = foldl (λ text d, text +:+ d.1 +:+ ": " +:+ pretty d.2 +:+ "<br>")
              ("<b>" +:+ reg +:+ " Region</b><br>"
                 +:+ "Total Programs: "
                 +:+ pretty (length (filter (λ r, region r = Some reg) filtered))
                 +:+ "<br><br>" +:+ "<b>By Device Type:</b><br>")
              (hover_breakdown filtered (Some reg)) ∧
      sum_list (hover_breakdown filtered (Some reg)).*2
      = length (filter (λ r, region r = Some reg) filtered).
Proof.
  destruct (filtered_df df sd sr) as [filtered|e] eqn:Hf;
    [|by rewrite filtered_df_eq in Hf].
  exists filtered. split; [done|]. intros reg. split.
  - unfold region_hover_text, hover_breakdown.
    rewrite region_total_lookup, foldl_fmap. reflexivity.
  - unfold hover_breakdown, region_devices, region_device_counts.
    rewrite <-list_fmap_compose.
    change (snd ∘ (λ g : string * string * nat, (g.1.2, g.2)))
      with (@snd (string * string) nat).
    etrans; [apply (@groupby_size_filter _ _ key2_le _
                      (λ k : string * string, Some k.1 = Some reg)
                      (λ k, decide_rel (=) (Some k.1) (Some reg)))|].
    rewrite dropna_filter_length. apply filter_length_ext. intros r Hr.
    destruct (filtered_df_cells _ _ _ _ r Hf Hr) as [[d ->] [g ->]]. cbn.
    done.
Qed.

(** ** The figure *)

Lemma state_totals_states filtered :
  state <$> state_totals filtered
  = (groupby_size String.le (state_province ∘ program <$> filtered)).*1.
Proof. unfold state_totals. by rewrite <-list_fmap_compose. Qed.

Lemma labels_filter vs (centers : list (string * (Z * Z))) :
  (filter (λ l : string * (Z * Z) * bool, l.2 = true)
          ((λ c, (c, is_in (Some c.1) vs)) <$> centers)).*1
  = filter (λ c, c.1 ∈ vs) centers.
Proof.
  rewrite filter_fmap, <-list_fmap_compose.
  rewrite (list_filter_iff _ (λ c : string * (Z * Z), c.1 ∈ vs)).
  - apply list_fmap_id.
  - intros c. cbn. by rewrite bool_decide_eq_true.
Qed.

Lemma render_fields filtered vs fig summary :
  render filtered (Some vs) = Ok (fig, summary) →
  locations fig = state <$> state_totals filtered ∧
  z fig = programs <$> state_totals filtered ∧
  length (customdata fig) = length (state_totals filtered) ∧
  text_traces fig = filter (λ c, c.1 ∈ vs) region_centers.
Proof.
  unfold render.
  erewrite (mapM_Ok (hover_text_of _ _ (Some vs)))
    by (intros; apply hover_text_of_Some).
  cbn [mbind result_bind]. unfold set_column.
  rewrite decide_True by (by rewrite length_fmap).
  erewrite (mapM_Ok _ (λ c, (c, is_in (Some c.1) vs))) by done.
  cbn [mbind result_bind]. intros [= <- _].
  cbn [locations z customdata text_traces].
  split; [|split; [|split]].
  - rewrite list_fmap_compose, fst_zip; [done|]. by rewrite length_fmap.
  - rewrite list_fmap_compose, fst_zip; [done|]. by rewrite length_fmap.
  - rewrite snd_zip by (by rewrite length_fmap). by rewrite length_fmap.
  - exact (labels_filter vs region_centers).
Qed.

(** The three outcomes of the callback. *)
Lemma update_map_cases df sd sr :
  ∃ filtered,
    filtered_df df sd sr = Ok filtered ∧
    ((filtered = [] ∧
      (update_map df sd sr = Ok no_data ∨ update_map df sd sr = Ok no_match)) ∨
     (filtered ≠ [] ∧
      ∃ vs fig summary,
        sr = Some vs ∧ render filtered (Some vs) = Ok (fig, summary) ∧
        update_map df sd sr = Ok (finish fig, summary))).
Proof.
  destruct (filtered_df df sd sr) as [filtered|e] eqn:Hf;
    [|by rewrite filtered_df_eq in Hf].
  exists filtered. split; [done|].
  destruct (decide (filtered = [])) as [->|Hne].
  - left. split; [done|].
    destruct (decide (df = [])) as [->|Hdf]; [by left|]. right.
    unfold update_map. rewrite decide_False by done. by rewrite Hf.
  - right. split; [done|].
    destruct (update_map_rendered _ _ _ _ Hf Hne)
      as (fig & summary & Hr & Hmap & _).
    destruct filtered as [|r rows]; [done|].
    destruct (filtered_df_elem_of _ _ _ _ r Hf) as (_ & _ & _ & _ & Hsr); [left|].
    apply truthy_Some in Hsr as (v & vs & ->). by exists (v :: vs), fig, summary.
Qed.

(** X7. Whatever the table and the selections, the figure lists each state
    of the working set once, in ascending order of state code, with one count
    and one hover text per state, and every count is at least 1. *)
Theorem figure_shape df sd sr :
  ∃ filtered fig summary,
    filtered_df df sd sr = Ok filtered ∧
    update_map df sd sr = Ok (fig, summary) ∧
    StronglySorted (strict String.le) (locations fig) ∧
    (∀ st, st ∈ locations fig ↔
           ∃ r, r ∈ filtered ∧ state_province (program r) = Some st) ∧
    length (z fig) = length (locations fig) ∧
    length (customdata fig) = length (locations fig) ∧
    Forall (λ n, 0 < n) (z fig).
Proof.
  destruct (update_map_cases df sd sr)
    as (filtered & Hf & [[-> Hmap]|(Hne & vs & fig & summary & -> & Hr & Hmap)]).
  - assert (∀ st, st ∈ [] ↔
              ∃ r : USProgram, r ∈ [] ∧ state_province (program r) = Some st).
    { intros st. split; [by intros ?%elem_of_nil|].
      by intros (r & ?%elem_of_nil & _). }
    destruct Hmap as [Hmap|Hmap]; eexists [], _, _;
      (split; [done|]); (split; [exact Hmap|]); cbn;
      (split; [constructor|]); (split; [done|]); (split; [done|]);
      (split; [done|]); constructor.
  - exists filtered, (finish fig), summary.
    split; [done|]. split; [done|].
    destruct (render_fields _ _ _ _ Hr) as (Hloc & Hz & Hcd & _).
    cbn [finish locations z customdata]. rewrite Hloc, Hz, Hcd, !length_fmap.
    split; [|split; [|split; [done|split; [done|]]]].
    + rewrite state_totals_states. apply groupby_size_sorted; apply _.
    + intros st. rewrite state_totals_states, groupby_size_keys,
        list_elem_of_fmap. split; intros (r & ? & ?); by exists r.
    + rewrite state_totals_programs. apply Forall_fmap.
      eapply Forall_impl; [apply groupby_size_positive|]. done.
Qed.

Lemma state_to_region_centers code reg :
  state_to_region !! code = Some reg → reg ∈ region_centers.*1.
Proof.
  intros Hr%elem_of_list_to_map_2.
  assert (Forall (λ kv : string * string, kv.2 ∈ region_centers.*1)
                 state_to_region_items)
    as Hall by (by eapply bool_decide_unpack; vm_compute).
  rewrite Forall_forall in Hall. exact (Hall _ Hr).
Qed.

(** X8. When the working set has rows, the map carries a text label for each
    selected region that has a centre, in the order of [region_centers],
    whether or not the region has rows. For a base table, the region of every
    state on the map is among the labelled regions. *)
Theorem regions_of_locations_are_labelled df_programs device_dict sd sr :
  ∃ filtered fig summary,
    filtered_df (df_us_programs df_programs device_dict) sd sr = Ok filtered ∧
    update_map (df_us_programs df_programs device_dict) sd sr
      = Ok (fig, summary) ∧
    (filtered ≠ [] →
     text_traces fig = filter (λ c, c.1 ∈ default [] sr) region_centers) ∧
    (∀ st, st ∈ locations fig →
           ∃ reg, state_to_region !! st = Some reg ∧
                  reg ∈ (text_traces fig).*1).
Proof.
  destruct (update_map_cases (df_us_programs df_programs device_dict) sd sr)
    as (filtered & Hf & [[-> Hmap]|(Hne & vs & fig & summary & -> & Hr & Hmap)]).
  - destruct Hmap as [Hmap|Hmap]; eexists [], _, _;
      (split; [done|]); (split; [exact Hmap|]); cbn;
      (split; [done|]); by intros st ?%elem_of_nil.
  - exists filtered, (finish fig), summary.
    split; [done|]. split; [done|].
    destruct (render_fields _ _ _ _ Hr) as (Hloc & _ & _ & Htext).
    cbn [finish locations text_traces default from_option id].
    rewrite Hloc, Htext. split; [done|].
    intros st (row & -> & Hrow)%list_elem_of_fmap.
    apply state_totals_elem_of in Hrow as (_ & r & Hin & Hst).
    destruct (filtered_df_elem_of _ _ _ _ r Hf Hin) as (Hbase & _ & Hsel & _).
    apply df_us_programs_elem_of in Hbase as (_ & _ & Hcols & _).
    assert (region r = state_to_region !! state row) as Hreg.
    { rewrite Hcols. cbn. by rewrite Hst. }
    rewrite Hreg in Hsel. cbn [default from_option id] in Hsel.
    destruct (state_to_region !! state row) as [reg|] eqn:Hlook;
      [|by apply is_in_None in Hsel].
    unfold is_in in Hsel. apply bool_decide_unpack in Hsel.
    exists reg. split; [done|].
    apply state_to_region_centers in Hlook.
    apply list_elem_of_fmap in Hlook as (c & -> & Hc).
    apply list_elem_of_fmap. exists c. split; [done|].
    by apply list_elem_of_filter.
Qed.

(** ** Selections are read as sets *)

Lemma is_in_ext x (vs ws : list string) :
  (∀ s, s ∈ vs ↔ s ∈ ws) → is_in x vs = is_in x ws.
Proof.
  intros Hsame. destruct x as [s|]; [|done]. cbn.
  apply bool_decide_ext, Hsame.
Qed.

Lemma truthy_ext (vs ws : list string) :
  (∀ s, s ∈ vs ↔ s ∈ ws) → truthy (Some vs) = truthy (Some ws).
Proof.
  intros Hsame. destruct vs as [|v vs], ws as [|w ws]; try done.
  - assert (w ∈ []) as ?%elem_of_nil by (apply Hsame; left). done.
  - assert (v ∈ []) as ?%elem_of_nil by (apply Hsame; left). done.
Qed.

Lemma render_eq filtered vs :
  render filtered (Some vs) =
  Ok ({| title := "Programs for Selected Device Types ("
                    +:+ pretty (length filtered) +:+ " total programs)";
         locations := state <$> state_totals filtered;
         z := programs <$> state_totals filtered;
         customdata :=
           (λ row,
              if bool_decide (state_region row ≠ Some "")
                   && is_in (state_region row) vs
              then region_hover_text (region_totals filtered)
                     (region_device_counts filtered) (state_region row)
              else "<b>" +:+ state row
                     +:+ "</b><br>No data for selected filters")
             <$> state_totals filtered;
         text_traces := filter (λ c, c.1 ∈ vs) region_centers;
         margins_set := false |},
      [ H3 "Summary Statistics";
        P ("Total Programs: " +:+ pretty (length filtered));
        P ("States with Programs: "
             +:+ pretty (length (state_totals filtered)));
        P ("Regions with Programs: "
             +:+ pretty (length (region_totals filtered)));
        H4 "Programs by Device Type:";
        Ul ((λ g, g.1 +:+ ": " +:+ pretty g.2)
              <$> device_breakdown filtered) ]).
Proof.
  unfold render.
  erewrite (mapM_Ok (hover_text_of _ _ (Some vs)))
    by (intros; apply hover_text_of_Some).
  cbn [mbind result_bind]. unfold set_column.
  rewrite decide_True by (by rewrite length_fmap).
  erewrite (mapM_Ok _ (λ c, (c, is_in (Some c.1) vs))) by done.
  cbn [mbind result_bind]. rewrite labels_filter.
  rewrite !list_fmap_compose, fst_zip by (by rewrite length_fmap).
  by rewrite snd_zip by (by rewrite length_fmap).
Qed.

Lemma render_ext filtered (vs ws : list string) :
  (∀ s, s ∈ vs ↔ s ∈ ws) → render filtered (Some vs) = render filtered (Some ws).
Proof.
  intros Hsame. rewrite !render_eq. do 3 f_equal.
  - apply list_fmap_ext. intros _ row _. by rewrite (is_in_ext _ vs ws).
  - apply list_filter_iff. intros c. apply Hsame.
Qed.

(** X9. The callback reads each selection as a set: two lists of selected
    devices with the same elements, and two lists of selected regions with
    the same elements, give the same figure and summary, whatever their order
    and repetitions. *)
Theorem update_map_reads_selections_as_sets df (ds ds' rs rs' : list string) :
  (∀ s, s ∈ ds ↔ s ∈ ds') → (∀ s, s ∈ rs ↔ s ∈ rs') →
  update_map df (Some ds) (Some rs) = update_map df (Some ds') (Some rs').
Proof.
  intros Hd Hr.
  assert (filtered_df df (Some ds) (Some rs)
          = filtered_df df (Some ds') (Some rs')) as Hf.
  { rewrite !filtered_df_eq, (truthy_ext ds ds'), (truthy_ext rs rs') by done.
    destruct (_ && _); [|done]. f_equal. apply list_filter_iff.
    intros r. unfold kept. cbn [default from_option id].
    by rewrite (is_in_ext _ ds ds'), (is_in_ext _ rs rs'). }
  unfold update_map. destruct (decide (df = [])); [done|].
  rewrite Hf. destruct (filtered_df df (Some ds') (Some rs')) as [filtered|e];
    [|done].
  cbn [mbind result_bind]. destruct (decide (0 < length filtered)); [|done].
  by rewrite (render_ext _ rs rs').
Qed.

Lemma update_map_reads_selections_as_sets_witness :
  update_map
    (df_us_programs
       [ {| state_province := Some "CA"; device_category_id := Some 1%Z |} ]
       {[ 1%Z := "Solar" ]})
    (Some ["Solar"; "Solar"]) (Some ["West"; "Midwest"])
  = update_map
      (df_us_programs
         [ {| state_province := Some "CA"; device_category_id := Some 1%Z |} ]
         {[ 1%Z := "Solar" ]})
      (Some ["Solar"]) (Some ["Midwest"; "West"]).
Proof.
  apply update_map_reads_selections_as_sets.
  - intros s. rewrite !elem_of_cons, !elem_of_nil. tauto.
  - intros s. rewrite !elem_of_cons, !elem_of_nil. tauto.
Defined.

(** ** The bulk-selection buttons *)

Lemma String_app_cons c s t : String c s +:+ t = String c (s +:+ t).
Proof. reflexivity. Qed.

Lemma index_dot_app b t :
  String.index 0 "." b = None →
  String.index 0 "." (b +:+ "." +:+ t) = Some (String.length b).
Proof.
  induction b as [|c b IH]; intros Hb.
  - change ("" +:+ "." +:+ t) with ("." +:+ t). rewrite String_app_cons.
    change ("" +:+ t) with t. simpl. by destruct t.
  - rewrite String_app_cons. cbn [String.index String.prefix] in *.
    destruct (Ascii.ascii_dec _ c); [by destruct b|].
    destruct (String.index 0 "." b); [discriminate|].
    by rewrite IH.
Qed.

Lemma substring_app b t : String.substring 0 (String.length b) (b +:+ t) = b.
Proof.
  induction b as [|c b IH]; [by destruct t|].
  rewrite String_app_cons. simpl. by rewrite IH.
Qed.

Lemma all_regions_elem_of reg :
  reg ∈ all_regions ↔ ∃ code, state_to_region !! code = Some reg.
Proof.
  unfold all_regions.
  rewrite elem_of_elements, elem_of_list_to_set, list_elem_of_fmap. split.
  - intros ([code reg'] & -> & Hin%elem_of_map_to_list). by exists code.
  - intros (code & Hcode). exists (code, reg). split; [done|].
    by apply elem_of_map_to_list.
Qed.

Lemma split_head_join b t :
  String.index 0 "." b = None → split_head (b +:+ "." +:+ t) = b.
Proof.
  intros Hb. unfold split_head. rewrite index_dot_app by done.
  apply substring_app.
Qed.

(** X10. [split_head] undoes the joining of a component id and a property
    name with a dot: for an id that contains no dot it gives back the id,
    whatever the property name (which may itself contain dots); and it leaves
    a string without a dot unchanged. *)
Theorem split_head_component b prop :
  String.index 0 "." b = None →
  split_head (b +:+ "." +:+ prop) = b ∧ split_head b = b.
Proof.
  intros Hb. split; [by apply split_head_join|].
  unfold split_head. by rewrite Hb.
Qed.

Lemma split_head_component_witness :
  split_head ("select-all-devices" +:+ "." +:+ "n_clicks.extra")
  = "select-all-devices".
Proof.
  apply (split_head_component "select-all-devices" "n_clicks.extra").
  reflexivity.
Defined.

(** X11. Each button works for every property name after the dot and looks
    only at the first triggered entry: the select-all buttons return all
    device options, respectively all regions, the clear buttons return the
    empty list. Without device options the device callback returns the empty
    list whatever triggered it; with no trigger a callback changes nothing.
    The list of all regions holds every region some state maps to, once. *)
Theorem bulk_selection_buttons opts prop rest :
  update_device_selection opts (("select-all-devices" +:+ "." +:+ prop) :: rest)
    = new_value opts ∧
  update_device_selection opts (("clear-all-devices" +:+ "." +:+ prop) :: rest)
    = new_value [] ∧
  update_region_selection (("select-all-regions" +:+ "." +:+ prop) :: rest)
    = new_value all_regions ∧
  update_region_selection (("clear-all-regions" +:+ "." +:+ prop) :: rest)
    = new_value [] ∧
  update_device_selection [] (prop :: rest) = new_value [] ∧
  update_device_selection opts []
    = (if decide (opts = []) then new_value [] else no_update) ∧
  update_region_selection [] = no_update ∧
  NoDup all_regions ∧
  (∀ reg, reg ∈ all_regions ↔ ∃ code, state_to_region !! code = Some reg).
Proof.
  unfold update_device_selection, update_region_selection.
  rewrite !split_head_join by reflexivity.
  split; [by destruct opts|]. split; [by destruct opts|].
  split; [done|]. split; [done|]. split; [done|].
  split; [by destruct opts|]. split; [done|].
  split; [apply NoDup_elements | apply all_regions_elem_of].
Qed.

(** ** Selecting everything *)

Lemma is_in_is_Some x vs : is_in x vs → is_Some x.
Proof. destruct x; [by eexists | done]. Qed.

Lemma filter_ext_elem {A} (P Q : A → Prop)
    `{!∀ x, Decision (P x), !∀ x, Decision (Q x)} (l : list A) :
  (∀ x, x ∈ l → P x ↔ Q x) → filter P l = filter Q l.
Proof.
  induction l as [|x l IH]; intros HPQ; [done|].
  rewrite !filter_cons.
  assert (P x ↔ Q x) as Hx by (apply HPQ; left).
  rewrite IH by (intros y Hy; apply HPQ; by right).
  destruct (decide (P x)), (decide (Q x)); tauto.
Qed.

(** X15. With every device option and every region selected (the state after
    the two select-all buttons) the working set is the base table without
    the rows that lack a device name or a region, in the table's order. *)
Theorem select_all_keeps_every_mapped_row df_programs device_dict :
  filtered_df (df_us_programs df_programs device_dict)
              (Some (device_options df_programs device_dict))
              (Some all_regions)
  = Ok (filter (λ r, is_Some (device_name r) ∧ is_Some (region r))
               (df_us_programs df_programs device_dict)).
Proof.
  rewrite filtered_df_eq. f_equal.
  destruct (device_options_spec df_programs device_dict) as (_ & _ & Hopts).
  assert (truthy (Some all_regions) = true) as ->.
  { assert ("West" ∈ all_regions) as Hwest
      by (apply all_regions_elem_of; by exists "CA").
    destruct all_regions; [by apply elem_of_nil in Hwest | done]. }
  rewrite andb_true_r.
  destruct (truthy (Some (device_options df_programs device_dict))) eqn:Htr.
  - cbn [default from_option id]. apply filter_ext_elem. intros r Hr.
    unfold kept. split.
    + by intros [Hd%is_in_is_Some Hg%is_in_is_Some].
    + intros [[d Hd] [reg Hreg]]. rewrite Hd, Hreg. unfold is_in. split.
      * apply bool_decide_pack, Hopts. by exists r.
      * apply bool_decide_pack, all_regions_elem_of.
        apply df_us_programs_elem_of in Hr as (_ & _ & Hcols & code & Hcode & _).
        exists code. rewrite <-Hreg, Hcols. cbn [region add_columns].
        rewrite Hcode. reflexivity.
  - symmetry. apply filter_none. intros r Hr [[d Hd] _].
    assert (d ∈ device_options df_programs device_dict) as Hin
      by (apply Hopts; by exists r).
    destruct (device_options df_programs device_dict); [|done].
    by apply elem_of_nil in Hin.
Qed.

(** ** The working set as a function of the table *)

(** X14. The working set is a sublist of the table: filtering never adds,
    duplicates or reorders rows. Filtering the working set again with the
    same selections returns it unchanged. *)
Theorem working_set_is_stable df sd sr :
  ∃ filtered,
    filtered_df df sd sr = Ok filtered ∧
    filtered `sublist_of` df ∧
    filtered_df filtered sd sr = Ok filtered.
Proof.
  rewrite filtered_df_eq. eexists. split; [done|].
  rewrite filtered_df_eq. destruct (truthy sd && truthy sr).
  - split; [apply sublist_filter|]. f_equal.
    rewrite list_filter_filter. apply list_filter_iff. tauto.
  - split; [apply sublist_nil_l | done].
Qed.

(** X17. Filtering distributes over appending tables: the working set of
    [t1 ++ t2] is the working set of [t1] followed by that of [t2], so the
    total of the combined table is the sum of the two totals. *)
Theorem working_set_of_appended_tables t1 t2 sd sr :
  ∃ f1 f2,
    filtered_df t1 sd sr = Ok f1 ∧ filtered_df t2 sd sr = Ok f2 ∧
    filtered_df (t1 ++ t2) sd sr = Ok (f1 ++ f2) ∧
    length (f1 ++ f2) = length f1 + length f2.
Proof.
  rewrite !filtered_df_eq. eexists _, _.
  split; [done|]. split; [done|]. split; [|apply length_app].
  destruct (truthy sd && truthy sr); [|done]. by rewrite filter_app.
Qed.
